(** * TimeUse: the sampling, aggregation and persistence loop of [main.py]

    A shallow embedding of [src/main.py]: the ledger [TimeRecord] (a Python
    [dict] of [dict]s), its XML reader and writer, the window sampler, the
    persistence adapter, the table projection and the controller driven by
    the two timers and the key bindings.

    Conventions of the model:
    - a [str] is a [string], one [ascii] per character, compared character
      by character as Python compares strings; the strings of the model
      are those of characters with codes below 256;
    - a [timedelta] is its whole number of microseconds, an integer; the
      bound of [timedelta] (about 2.7 million years) is never approached
      by one-second ticks and is left out;
    - a [dict] is the list of its items in insertion order;
    - the text of an XML document is identified with the element tree it
      denotes, and text that is not well-formed does not parse. Writing is
      followed character by character in the attribute values, as
      [ET.tostring], [minidom.parseString] and [toprettyxml] of Python
      3.11 treat them: a control character other than the tab, the line
      feed and the carriage return makes [to_xml] raise, and those three
      are read back as spaces;
    - the float functions between a duration and the text of its seconds,
      and [os.path.basename], are parameters of the program;
    - the firings of the two timers and the key presses are handled one
      at a time, in the order they arrive. *)

From Stdlib Require Import ZArith String Ascii List Lia Bool Sorted Permutation.
From Stdlib Require Import DecimalString DecimalPos DecimalZ OrdersEx.
From stdpp Require Import base option list gmap strings.

Import ListNotations.
Local Open Scope string_scope.
Local Open Scope list_scope.
Local Open Scope Z_scope.

(** ** Exceptions and fallible code *)

(** The exception classes the program can meet. *)
Inductive exception : Type :=
| KeyError (key : string)          (* [attrib["name"]] on a missing attribute *)
| ValueError (text : string)       (* [float(text)] on a non-numeric text *)
| TypeError                        (* [float(None)] *)
| ParseError                       (* [ET.fromstring] on text that is not well-formed *)
| ExpatError                       (* [minidom.parseString] on markup that is not well-formed *)
| FileNotFoundError (path : string).

(** A computation either returns a value or raises. *)
Inductive result (A : Type) : Type :=
| Ok (a : A)
| Raise (e : exception).
Arguments Ok {A} a.
Arguments Raise {A} e.

Definition bind {A B : Type} (c : result A) (k : A -> result B) : result B :=
  match c with
  | Ok a => k a
  | Raise e => Raise e
  end.

Declare Scope result_scope.
Delimit Scope result_scope with result.
Notation "x <~ c ;; k" := (bind c (fun x => k))
  (at level 100, c at next level, right associativity) : result_scope.
Local Open Scope result_scope.

Definition returns {A : Type} (c : result A) : bool :=
  match c with Ok _ => true | Raise _ => false end.

(** ** Python dictionaries with string keys

    A [dict] keeps its items in insertion order and its keys distinct;
    assigning to a key that is present replaces the value in place. *)
Module Dict.
Section Dict.
Context {V : Type}.

Definition t : Type := list (string * V).

(** [d.get(k)] *)
Fixpoint get (d : t) (k : string) : option V :=
  match d with
  | [] => None
  | (k', v) :: d' => if String.eqb k' k then Some v else get d' k
  end.

(** [d.get(k, dflt)] *)
Definition get_default (d : t) (k : string) (dflt : V) : V :=
  match get d k with
  | Some v => v
  | None => dflt
  end.

(** [d[k] = v] *)
Fixpoint set (d : t) (k : string) (v : V) : t :=
  match d with
  | [] => [(k, v)]
  | (k', v') :: d' =>
      if String.eqb k' k then (k', v) :: d' else (k', v') :: set d' k v
  end.

Definition keys (d : t) : list string := map fst d.
Definition values (d : t) : list V := map snd d.
End Dict.
Arguments t V : clear implicits.
End Dict.

(** ** The ledger: [class TimeRecord(dict)] *)

(** A [datetime.timedelta] holds an exact whole number of microseconds. *)
Definition timedelta : Type := Z.

(** [timedelta(seconds=n)] for a whole number [n]. *)
Definition timedelta_seconds (n : Z) : timedelta := n * 1000000.

(** [timedelta()] *)
Definition timedelta_zero : timedelta := 0.

Definition Titles : Type := Dict.t timedelta.
Definition TimeRecord : Type := Dict.t Titles.

(** [TimeRecord()] *)
Definition TimeRecord_new : TimeRecord := [].

(** [TimeRecord.add_timedelta]. Line 36 stores the title dict of the
    application (a fresh one when there is none); line 37 reads that same
    dict back, takes the title's duration with the added [delta] itself as
    the default, adds [delta] and stores the sum in it. *)
Definition add_timedelta (self : TimeRecord) (application title : string)
    (delta : timedelta) : TimeRecord :=
  let titles := Dict.get_default self application [] in
  let self1 := Dict.set self application titles in
  let time := Dict.get_default titles title delta + delta in
  Dict.set self1 application (Dict.set titles title time).

(** The duration recorded for an (application, title) pair. *)
Definition recorded (r : TimeRecord) (application title : string)
    : option timedelta :=
  match Dict.get r application with
  | Some titles => Dict.get titles title
  | None => None
  end.

(** [n] calls of [add_timedelta] for the same pair and the same interval. *)
Fixpoint accrue_ticks (n : nat) (r : TimeRecord) (application title : string)
    (d : timedelta) : TimeRecord :=
  match n with
  | O => r
  | S n' => accrue_ticks n' (add_timedelta r application title d) application title d
  end.

(** Ledgers built from the empty one by calls of [add_timedelta]. *)
Inductive reachable : TimeRecord -> Prop :=
| reachable_new : reachable TimeRecord_new
| reachable_add r application title delta :
    reachable r -> reachable (add_timedelta r application title delta).

(** ** XML documents

    [xml.etree.ElementTree.Element]: a tag, an attribute dict, an optional
    text and the child elements in document order. *)
#[local] Unset Elimination Schemes.
Inductive Element : Type :=
| Elem (tag : string) (attrib : Dict.t string) (text : option string)
       (children : list Element).
#[local] Set Elimination Schemes.

Definition tag (e : Element) : string := let 'Elem t _ _ _ := e in t.
Definition attrib (e : Element) : Dict.t string := let 'Elem _ a _ _ := e in a.
Definition text (e : Element) : option string := let 'Elem _ _ x _ := e in x.
Definition children (e : Element) : list Element := let 'Elem _ _ _ c := e in c.

(** [e.findall(name)] for a plain tag name: the direct children with that
    tag, in document order. *)
Definition findall (e : Element) (name : string) : list Element :=
  List.filter (fun c => String.eqb (tag c) name) (children e).

(** [e.attrib[k]] *)
Definition getitem (e : Element) (k : string) : result string :=
  match Dict.get (attrib e) k with
  | Some v => Ok v
  | None => Raise (KeyError k)
  end.

(** The text of a file or of a string handed to the parser: either the
    markup of a document, identified with the element tree it denotes
    (indentation and line breaks between elements are cosmetic), or a text
    that is not well-formed XML, such as the empty text. *)
Inductive xml_text : Type :=
| Markup (root : Element)
| NotXml (s : string).

(** [ET.fromstring] *)
Definition fromstring (xml : xml_text) : result Element :=
  match xml with
  | Markup root => Ok root
  | NotXml _ => Raise ParseError
  end.

(** The characters an XML document can hold: the tab, the line feed, the
    carriage return and everything from the space up. Markup with any
    other control character is not well-formed. *)
Definition xml_char (c : ascii) : bool :=
  let n := nat_of_ascii c in
  ((32 <=? n) || (n =? 9) || (n =? 10) || (n =? 13))%nat.

Fixpoint xml_chars (s : string) : bool :=
  match s with
  | EmptyString => true
  | String c s' => xml_char c && xml_chars s'
  end.

(** The attribute values of a tree, at every depth, hold such characters
    only. *)
Fixpoint attributes_are_xml (e : Element) : bool :=
  let 'Elem _ a _ c := e in
  List.forallb (fun kv => xml_chars (snd kv)) a
  && List.forallb attributes_are_xml c.

(** [minidom.parseString(ET.tostring(root))]. [ET.tostring] writes the tab,
    the line feed and the carriage return of an attribute value as
    character references and every other character as it is, so the
    parser gets the tree back, or raises [ExpatError] when an attribute
    value holds another control character. *)
Definition parseString_tostring (root : Element) : result Element :=
  if attributes_are_xml root then Ok root else Raise ExpatError.

(** What a parser reads for an attribute value that stands in the markup as
    it is, without character references: a tab, a line feed, a carriage
    return, and a carriage return with the line feed after it, each give
    one space. *)
Fixpoint attribute_read_back (s : string) : string :=
  match s with
  | EmptyString => EmptyString
  | String c s' =>
      if Ascii.eqb c "013"%char then
        match s' with
        | String c' s'' =>
            if Ascii.eqb c' "010"%char then String " " (attribute_read_back s'')
            else String " " (attribute_read_back s')
        | EmptyString => String " " EmptyString
        end
      else if Ascii.eqb c "010"%char || Ascii.eqb c "009"%char then
        String " " (attribute_read_back s')
      else String c (attribute_read_back s')
  end.

(** The tree that the text of [toprettyxml] denotes: minidom writes
    attribute values with [&], [<], [>] and the quote escaped and every
    other character as it is, so each value is the one read back. The
    texts of elements are kept: those that [to_xml] writes are printed
    numbers. *)
Fixpoint as_written (e : Element) : Element :=
  let 'Elem t a x c := e in
  Elem t (List.map (fun kv => (fst kv, attribute_read_back (snd kv))) a) x
       (List.map as_written c).

(** [dom.toprettyxml(indent="   ")] *)
Definition toprettyxml (dom : Element) : xml_text := Markup (as_written dom).

(** A string of characters from the space up: it holds no control
    character, so it is written to the markup and read back as it is. *)
Fixpoint plain (s : string) : bool :=
  match s with
  | EmptyString => true
  | String c s' => (32 <=? nat_of_ascii c)%nat && plain s'
  end.

(** [for x in xs: s = body(s, x)], where the body may raise. *)
Fixpoint for_each {A S : Type} (body : S -> A -> result S) (xs : list A) (s : S)
    : result S :=
  match xs with
  | [] => Ok s
  | x :: xs' => s' <~ body s x ;; for_each body xs' s'
  end.

(** ** Sorting as [sorted(data, key=..., reverse=...)] does: stable, and
    stable under [reverse] too (equal keys keep their original order). *)
Section Sorting.
Context {A K : Type} (key : A -> K) (leb : K -> K -> bool).

(** [x] may stand in front of [y]. *)
Definition in_front (reverse : bool) (x y : A) : bool :=
  if reverse then leb (key y) (key x) else leb (key x) (key y).

Fixpoint insert_sorted (reverse : bool) (x : A) (l : list A) : list A :=
  match l with
  | [] => [x]
  | y :: l' =>
      if in_front reverse x y then x :: y :: l'
      else y :: insert_sorted reverse x l'
  end.

Definition sorted (reverse : bool) (l : list A) : list A :=
  List.fold_right (insert_sorted reverse) [] l.
End Sorting.

(** ** The window sampler *)

(** What a win32 call answers: a value, or an exception [e], kept as its
    message [str(e)]. *)
Inductive answer (A : Type) : Type :=
| Answer (a : A)
| Fails (msg : string).
Arguments Answer {A} a.
Arguments Fails {A} msg.

Definition and_then {A B : Type} (c : answer A) (k : A -> answer B) : answer B :=
  match c with
  | Answer a => k a
  | Fails msg => Fails msg
  end.

(** What the win32 calls of one sample answer. *)
Record OS : Type := {
  GetForegroundWindow : answer Z;
  GetWindowThreadProcessId : Z -> answer (Z * Z);
  OpenProcess : Z -> answer Z;
  GetModuleFileNameEx : Z -> answer string;
  GetWindowText : Z -> answer string
}.

(** The dict [get_active_window_info] returns; [error] is its optional
    ["error"] key. *)
Record info : Type := {
  error : option string;
  process_id : Z;
  process_name : string;
  title : string
}.

(** The body of the [try] in [get_active_window_info]. *)
Definition query_window (os : OS) : answer (Z * string * string) :=
  and_then (GetForegroundWindow os) (fun window =>
  and_then (GetWindowThreadProcessId os window) (fun tp =>
  and_then (OpenProcess os (snd tp)) (fun h_process =>
  and_then (GetModuleFileNameEx os h_process) (fun process_name =>
  and_then (GetWindowText os window) (fun title =>
  Answer (snd tp, process_name, title)))))).

(** The [except] branch turns the exception into a dict with an ["error"]
    key: the function itself raises nothing. *)
Definition get_active_window_info (os : OS) : info :=
  match query_window os with
  | Fails msg =>
      {| error := Some msg; process_id := -1;
         process_name := "unknown"; title := "unknown" |}
  | Answer (p, process_name, title) =>
      {| error := None; process_id := p;
         process_name := process_name; title := title |}
  end.

(** ** The table *)

(** One call of [DataTable.add_row]: the header row of an application, the
    row of a title, or the empty separator row. *)
Inductive Row : Type :=
| AppRow (key : string) (name : string) (total : timedelta)
| TitleRow (key : string) (title : string) (time : timedelta)
| BlankRow.

(** [sum(titles.values(), timedelta())] *)
Definition sum_values (titles : Titles) : timedelta :=
  List.fold_left Z.add (Dict.values titles) timedelta_zero.

(** [truncate_string] with its default length. *)
Definition truncate_string (s : string) : string :=
  if (20 <? String.length s)%nat then String.substring 0 20 s ++ "..." else s.

(** The same function on the characters of any alphabet: [len(s)] and
    [s[:length]] count the characters of a Python string, whatever their
    code points; [dot] is the full stop. *)
Definition truncate_chars {A : Type} (dot : A) (s : list A) : list A :=
  if (20 <? length s)%nat then firstn 20 s ++ [dot; dot; dot] else s.

(** The application rows of a table, by key. *)
Fixpoint app_keys (rows : list Row) : list string :=
  match rows with
  | [] => []
  | AppRow key _ _ :: rows' => key :: app_keys rows'
  | _ :: rows' => app_keys rows'
  end.

(** ** Files *)

(** The files of the working directory, by name. *)
Abbreviation FileSystem := (gmap string xml_text).

Definition record_xml : string := "record.xml".

(** [open(path, "r")] followed by [f.read()]. *)
Definition read_file (fs : FileSystem) (path : string) : result xml_text :=
  match fs !! path with
  | Some content => Ok content
  | None => Raise (FileNotFoundError path)
  end.

(** [open(path, "w")]: the file is created or cut to length zero. *)
Definition open_w (fs : FileSystem) (path : string) : FileSystem :=
  <[path := NotXml ""]> fs.

(** [f.write(content)] and the close at the end of the [with] block. *)
Definition write_close (fs : FileSystem) (path : string) (content : xml_text)
    : FileSystem :=
  <[path := content]> fs.

(** ** The library functions on plain inputs

    Used where a statement is evaluated on concrete data. *)

(** [str(time.total_seconds())] for a duration of whole seconds (fewer than
    10^16 of them), which prints as the number of seconds followed by
    [.0]. *)
Definition str_whole_seconds (time : timedelta) : string :=
  (NilZero.string_of_int (Z.to_int (time / 1000000)) ++ ".0")%string.

(** [timedelta(seconds=float(s))] for a text made of decimal digits followed
    by [.0]; other texts are not handled here. *)
Definition timedelta_of_whole_seconds (s : string) : option timedelta :=
  let n := String.length s in
  if String.eqb (String.substring (n - 2) 2 s) ".0" then
    match NilZero.int_of_string (String.substring 0 (n - 2) s) with
    | Some i => Some (timedelta_seconds (Z.of_int i))
    | None => None
    end
  else None.

Definition is_sep (c : ascii) : bool :=
  Ascii.eqb c "\"%char || Ascii.eqb c "/"%char.

Fixpoint has_sep (s : string) : bool :=
  match s with
  | EmptyString => false
  | String c s' => is_sep c || has_sep s'
  end.

(** [os.path.basename] of a Windows path whose last component follows a
    separator (or that has no separator and no drive): the text after the
    last backslash or slash. *)
Fixpoint path_tail (s : string) : string :=
  match s with
  | EmptyString => EmptyString
  | String c s' =>
      if has_sep s' then path_tail s'
      else if is_sep c then s' else s
  end.

(** ** Sample data *)

(** A ledger with five seconds for one window of an editor. *)
Definition editor_ledger : TimeRecord :=
  [("C:\editor.exe", [("draft.txt", timedelta_seconds 5)])].

(** A document whose root is not [TimeRecord]. *)
Definition foreign_root_document : Element :=
  Elem "Bookmarks" [] None
    [Elem "Application" [("name", "C:\editor.exe")] None
       [Elem "Title" [("name", "draft.txt")] (Some "5.0") []]].

(** A document in which the editor comes twice, around a browser. *)
Definition editor_first : Element :=
  Elem "Application" [("name", "C:\editor.exe")] None
    [Elem "Title" [("name", "draft.txt")] (Some "5.0") [];
     Elem "Title" [("name", "notes.txt")] (Some "60.0") []].

Definition browser_between : Element :=
  Elem "Application" [("name", "C:\browser.exe")] None
    [Elem "Title" [("name", "news")] (Some "30.0") []].

Definition editor_last : Element :=
  Elem "Application" [("name", "C:\editor.exe")] None
    [Elem "Title" [("name", "draft.txt")] (Some "7.0") []].

Definition repeated_application_document : Element :=
  Elem "TimeRecord" [] None
    [editor_first; editor_last; browser_between].

(** A document with the browser first and the editor second. *)
Definition browser_editor_document : Element :=
  Elem "TimeRecord" [] None [browser_between; editor_last].

(** A document in which the last editor element holds the same title
    twice. *)
Definition editor_draft_twice : Element :=
  Elem "Application" [("name", "C:\editor.exe")] None
    [Elem "Title" [("name", "draft.txt")] (Some "5.0") [];
     Elem "Title" [("name", "notes.txt")] (Some "60.0") [];
     Elem "Title" [("name", "draft.txt")] (Some "9.0") []].

Definition repeated_title_document : Element :=
  Elem "TimeRecord" [] None [editor_first; editor_draft_twice; browser_between].


(** A ledger with two applications. *)
Definition two_application_ledger : TimeRecord :=
  [("C:\editor.exe", [("draft.txt", timedelta_seconds 7)]);
   ("C:\browser.exe", [("news", timedelta_seconds 30)])].



(** A ledger in which an application is named as another application and
    one of its titles are, joined by an underscore. *)
Definition underscore_ledger : TimeRecord :=
  [("a_b", [("c", timedelta_seconds 1)]); ("a", [("b", timedelta_seconds 1)])].

(** A sample in which the process of the foreground window cannot be
    opened, and one in which the editor has the focus. *)
Definition os_access_denied : OS :=
  {| GetForegroundWindow := Answer 1056;
     GetWindowThreadProcessId := fun _ => Answer (8, 4);
     OpenProcess := fun _ => Fails "Access is denied.";
     GetModuleFileNameEx := fun _ => Answer "C:\editor.exe";
     GetWindowText := fun _ => Answer "draft.txt" |}.

Definition os_editor_focused : OS :=
  {| GetForegroundWindow := Answer 1056;
     GetWindowThreadProcessId := fun _ => Answer (8, 4242);
     OpenProcess := fun _ => Answer 77;
     GetModuleFileNameEx := fun _ => Answer "C:\editor.exe";
     GetWindowText := fun _ => Answer "draft.txt" |}.

(** ** The program *)
Section Program.
#[local] Set Default Proof Using "Type".

(** Three library functions are taken as they are.
    [str_total_seconds time] is [str(time.total_seconds())], the seconds
    of a duration printed as a floating-point number;
    [timedelta_of_text s] is [timedelta(seconds=float(s))], [None] when
    [float] rejects the text; [basename] is [os.path.basename]. *)
Variable str_total_seconds : timedelta -> string.
Variable timedelta_of_text : string -> option timedelta.
Variable basename : string -> string.

(** *** [TimeRecord.to_xml] *)

Definition title_to_xml (item : string * timedelta) : Element :=
  Elem "Title" [("name", fst item)] (Some (str_total_seconds (snd item))) [].

Definition application_to_xml (item : string * Titles) : Element :=
  Elem "Application" [("name", fst item)] None
       (List.map title_to_xml (snd item)).

Definition to_xml (self : TimeRecord) : result xml_text :=
  dom <~ parseString_tostring
           (Elem "TimeRecord" [] None (List.map application_to_xml self)) ;;
  Ok (toprettyxml dom).

(** *** [TimeRecord.from_xml] *)

(** [timedelta(seconds=float(title_element.text))] *)
Definition read_time (title_element : Element) : result timedelta :=
  match text title_element with
  | None => Raise TypeError
  | Some s =>
      match timedelta_of_text s with
      | Some time => Ok time
      | None => Raise (ValueError s)
      end
  end.

(** The body of the inner loop: [record[application][title] = time]
    updates, in place, the title dict stored under [application]. *)
Definition read_title (application : string) (record : TimeRecord)
    (title_element : Element) : result TimeRecord :=
  title <~ getitem title_element "name" ;;
  time <~ read_time title_element ;;
  Ok (Dict.set record application
        (Dict.set (Dict.get_default record application []) title time)).

(** The body of the outer loop. *)
Definition read_application (record : TimeRecord) (app_element : Element)
    : result TimeRecord :=
  application <~ getitem app_element "name" ;;
  for_each (read_title application) (findall app_element "Title")
           (Dict.set record application []).

Definition from_xml (xml : xml_text) : result TimeRecord :=
  root <~ fromstring xml ;;
  for_each read_application (findall root "Application") TimeRecord_new.

(** *** Persistence: [load_record] and [save_record] *)

Definition load_record (fs : FileSystem) : result TimeRecord :=
  match (xml <~ read_file fs record_xml ;; from_xml xml) with
  | Raise (FileNotFoundError _) => Ok TimeRecord_new
  | r => r
  end.

(** The states of the files that [save_record] goes through, one per
    operation on the file: the file is opened for writing, then
    [record.to_xml()] is evaluated, then its text is written. When [to_xml]
    raises, the [with] block closes the file as it is and the call
    raises. *)
Definition save_record_trace (record : TimeRecord) (fs : FileSystem)
    : list FileSystem :=
  let fs1 := open_w fs record_xml in
  match to_xml record with
  | Ok content => [fs1; write_close fs1 record_xml content]
  | Raise _ => [fs1]
  end.

(** The files that [save_record] leaves, whether it returns or raises. *)
Definition save_record (record : TimeRecord) (fs : FileSystem) : FileSystem :=
  let fs1 := open_w fs record_xml in
  match to_xml record with
  | Ok content => write_close fs1 record_xml content
  | Raise _ => fs1
  end.

(** The states of the files a process can leave behind when it ends at
    some point of [save_record]: before it, or after any of its
    operations. *)
Definition save_record_crash_states (record : TimeRecord) (fs : FileSystem)
    : list FileSystem :=
  fs :: save_record_trace record fs.

(** *** [refresh_table] *)

Definition sort_items {V : Type} (sort_by_process_up : option bool)
    (data : Dict.t V) : list (string * V) :=
  match sort_by_process_up with
  | Some up => sorted fst String.leb up data
  | None => data
  end.

Definition title_row (app : string) (item : string * timedelta) : Row :=
  TitleRow (app ++ "_" ++ fst item)%string (truncate_string (fst item)) (snd item).

Definition application_rows (sort_by_process_up sort_by_time_up : option bool)
    (item : string * Titles) : list Row :=
  let '(app, titles) := item in
  let td := sort_items sort_by_process_up titles in
  let td := match sort_by_time_up with
            | Some up => sorted snd Z.leb up td
            | None => td
            end in
  AppRow app (basename app) (sum_values titles)
    :: List.map (title_row app) td ++ [BlankRow].

(** The rows [refresh_table] adds to the cleared table, in order. *)
Definition refresh_table (sort_by_process_up sort_by_time_up : option bool)
    (record : TimeRecord) : list Row :=
  let data := sort_items sort_by_process_up record in
  let data := match sort_by_time_up with
              | Some up => sorted (fun x => sum_values (snd x)) Z.leb up data
              | None => data
              end in
  List.flat_map (application_rows sort_by_process_up sort_by_time_up) data.

(** *** The application *)

(** The mutable state of [TimeUseApp], the files it writes, what it
    printed, and the number of calls of [save_record] so far. *)
Record TimeUseApp : Type := {
  paused : bool;
  record : TimeRecord;
  sort_by_process_up : option bool;
  sort_by_time_up : option bool;
  table : list Row;
  files : FileSystem;
  printed : list string;
  saves : nat
}.

Definition do_refresh_table (self : TimeUseApp) : TimeUseApp :=
  {| paused := paused self; record := record self;
     sort_by_process_up := sort_by_process_up self;
     sort_by_time_up := sort_by_time_up self;
     table := refresh_table (sort_by_process_up self) (sort_by_time_up self)
                            (record self);
     files := files self; printed := printed self; saves := saves self |}.

Definition do_save_record (self : TimeUseApp) : TimeUseApp :=
  {| paused := paused self; record := record self;
     sort_by_process_up := sort_by_process_up self;
     sort_by_time_up := sort_by_time_up self;
     table := table self;
     files := save_record (record self) (files self);
     printed := printed self; saves := S (saves self) |}.

(** [on_mount]: the class attributes give the initial pause and sort
    state, the ledger is loaded, the table is filled. *)
Definition on_mount (fs : FileSystem) : result TimeUseApp :=
  loaded <~ load_record fs ;;
  Ok (do_refresh_table
        {| paused := false; record := loaded;
           sort_by_process_up := Some true; sort_by_time_up := None;
           table := []; files := fs; printed := []; saves := 0 |}).

(** The subscriber of the sample timer. *)
Definition record_and_print_error (self : TimeUseApp) (x : info) : TimeUseApp :=
  {| paused := paused self;
     record := add_timedelta (record self) (process_name x) (title x)
                             (timedelta_seconds 1);
     sort_by_process_up := sort_by_process_up self;
     sort_by_time_up := sort_by_time_up self;
     table := table self; files := files self;
     printed := match error x with
                | Some msg => printed self ++ [msg]
                | None => printed self
                end;
     saves := saves self |}.

(** One firing of the one-second timer: the pause filter, the sampler, the
    filter on ["error"], the subscriber. *)
Definition on_sample_tick (self : TimeUseApp) (os : OS) : TimeUseApp :=
  if paused self then self
  else
    let x := get_active_window_info os in
    match error x with
    | Some _ => self
    | None => record_and_print_error self x
    end.

(** One firing of the ten-second timer: the pause filter and the three
    subscribers. *)
Definition on_save_tick (self : TimeUseApp) : TimeUseApp :=
  if paused self then self
  else do_refresh_table (do_refresh_table (do_save_record self)).

Definition action_switch_paused (self : TimeUseApp) : TimeUseApp :=
  {| paused := negb (paused self); record := record self;
     sort_by_process_up := sort_by_process_up self;
     sort_by_time_up := sort_by_time_up self;
     table := table self; files := files self;
     printed := printed self; saves := saves self |}.

Definition action_sort_by_process (self : TimeUseApp) : TimeUseApp :=
  do_refresh_table
    {| paused := paused self; record := record self;
       sort_by_process_up := match sort_by_process_up self with
                             | None => Some true
                             | Some up => Some (negb up)
                             end;
       sort_by_time_up := None;
       table := table self; files := files self;
       printed := printed self; saves := saves self |}.

Definition action_sort_by_time (self : TimeUseApp) : TimeUseApp :=
  do_refresh_table
    {| paused := paused self; record := record self;
       sort_by_process_up := None;
       sort_by_time_up := match sort_by_time_up self with
                          | None => Some true
                          | Some up => Some (negb up)
                          end;
       table := table self; files := files self;
       printed := printed self; saves := saves self |}.


(** What the running application reacts to. *)
Inductive event : Type :=
| SampleTick (os : OS)
| SaveTick
| Key_n
| Key_p
| Key_t.

Definition handle (self : TimeUseApp) (ev : event) : TimeUseApp :=
  match ev with
  | SampleTick os => on_sample_tick self os
  | SaveTick => on_save_tick self
  | Key_n => action_switch_paused self
  | Key_p => action_sort_by_process self
  | Key_t => action_sort_by_time self
  end.

Definition run (self : TimeUseApp) (evs : list event) : TimeUseApp :=
  List.fold_left handle evs self.

Definition is_tick (ev : event) : bool :=
  match ev with
  | SampleTick _ | SaveTick => true
  | _ => false
  end.

(** The states of the application: after [on_mount], and after each
    event handled from there. *)
Inductive app_reachable : TimeUseApp -> Prop :=
| app_mounted fs self : on_mount fs = Ok self -> app_reachable self
| app_handled self ev : app_reachable self -> app_reachable (handle self ev).

(** *** Reading one element on its own, and the schema as the reader
    enforces it *)

(** The inner loop of [from_xml] on a title dict of its own. *)
Definition add_title (titles : Titles) (title_element : Element) : result Titles :=
  title <~ getitem title_element "name" ;;
  time <~ read_time title_element ;;
  Ok (Dict.set titles title time).

(** The title dict that the [Title] children of an element give. *)
Definition read_titles (app_element : Element) : result Titles :=
  for_each add_title (findall app_element "Title") [].

Definition has_name (e : Element) : bool :=
  match Dict.get (attrib e) "name" with Some _ => true | None => false end.

Definition numeric_text (e : Element) : bool :=
  match text e with
  | Some s => match timedelta_of_text s with Some _ => true | None => false end
  | None => false
  end.

Definition title_ok (e : Element) : bool := has_name e && numeric_text e.

Definition application_ok (e : Element) : bool :=
  has_name e && List.forallb title_ok (findall e "Title").

(** Every [Application] child of the root has a name, and every [Title]
    child of such a child has a name and a numeric text. *)
Definition schema_ok (xml : xml_text) : bool :=
  match xml with
  | NotXml _ => false
  | Markup root => List.forallb application_ok (findall root "Application")
  end.



(** All the durations of a ledger. *)
Definition durations (r : TimeRecord) : list timedelta :=
  List.flat_map (fun item => Dict.values (snd item)) r.

(** The dict invariant of the ledgers the program builds: distinct
    applications, and distinct titles under each. *)
Definition distinct_keys (r : TimeRecord) : Prop :=
  NoDup (Dict.keys r) /\ Forall (fun item => NoDup (Dict.keys (snd item))) r.

(** Some file holds the text of a well-formed document. *)
Definition has_readable_copy (fs : FileSystem) : Prop :=
  exists path content, fs !! path = Some content /\ returns (fromstring content) = true.

(** A save that never leaves the files without a readable copy: whatever
    point of [save_record] the process ends at, if there was a readable
    copy before, there is one after. *)
Definition save_record_never_loses_copy (record : TimeRecord) (fs : FileSystem)
    : Prop :=
  has_readable_copy fs ->
  forall fs', In fs' (save_record_crash_states record fs) -> has_readable_copy fs'.

(** At most one of the two sort modes is active. *)
Definition sort_modes_exclusive (self : TimeUseApp) : Prop :=
  sort_by_process_up self = None \/ sort_by_time_up self = None.

(** The errors of the XML reader. *)
Definition reader_error (e : exception) : bool :=
  match e with
  | KeyError _ | ValueError _ | TypeError | ParseError => true
  | ExpatError | FileNotFoundError _ => false
  end.

(** *** What the table shows, and the events that write *)

(** The header rows of a table: the key of each application and the total
    shown for it. *)
Fixpoint app_headers (rows : list Row) : list (string * timedelta) :=
  match rows with
  | [] => []
  | AppRow key _ total :: rows' => (key, total) :: app_headers rows'
  | _ :: rows' => app_headers rows'
  end.

(** The times of the title rows of a table. *)
Fixpoint title_times (rows : list Row) : list timedelta :=
  match rows with
  | [] => []
  | TitleRow _ _ time :: rows' => time :: title_times rows'
  | _ :: rows' => title_times rows'
  end.

(** The order in which a sort flag lists keys: descending when the flag is
    set, ascending when it is not. *)
Definition listed_by (leb : string -> string -> bool) (up : bool)
    (a b : string) : Prop :=
  (if up then leb b a else leb a b) = true.

Definition listed_by_time (up : bool) (x y : timedelta) : Prop :=
  (if up then Z.leb y x else Z.leb x y) = true.

Definition is_save_tick (ev : event) : bool :=
  match ev with SaveTick => true | _ => false end.

(** Exactly one of the two sort modes is active. *)
Definition one_sort_mode (self : TimeUseApp) : Prop :=
  (sort_by_process_up self <> None /\ sort_by_time_up self = None)
  \/ (sort_by_process_up self = None /\ sort_by_time_up self <> None).

(** A duration whose printed seconds are read back as the duration. *)
Definition rereads_exactly (d : timedelta) : Prop :=
  timedelta_of_text (str_total_seconds d) = Some d.

(** *** Names and durations on their way through the markup *)

(** The applications and the titles of a ledger hold no control
    character. *)
Definition plain_names (r : TimeRecord) : bool :=
  List.forallb
    (fun item : string * Titles =>
       plain (fst item) && List.forallb (fun t => plain (fst t)) (snd item))
    r.

(** A duration as it is read back from its printed seconds. *)
Definition reread (d : timedelta) : result timedelta :=
  match timedelta_of_text (str_total_seconds d) with
  | Some d' => Ok d'
  | None => Raise (ValueError (str_total_seconds d))
  end.

(** A ledger with each of its durations read back from its printed
    seconds, in the order of the ledger; the first duration that is not
    read back raises. *)
Definition reread_title (acc : Titles) (item : string * timedelta)
    : result Titles :=
  d' <~ reread (snd item) ;; Ok (acc ++ [(fst item, d')]).

Definition reread_titles (titles : Titles) : result Titles :=
  for_each reread_title titles [].

Definition reread_application (acc : TimeRecord) (item : string * Titles)
    : result TimeRecord :=
  titles' <~ reread_titles (snd item) ;; Ok (acc ++ [(fst item, titles')]).

Definition reread_ledger (r : TimeRecord) : result TimeRecord :=
  for_each reread_application r [].

(** The keys that [refresh_table] hands to [add_row]; the separator rows
    come without one. [DataTable.add_row] raises [DuplicateKey] when a key
    comes twice. *)
Fixpoint row_keys (rows : list Row) : list string :=
  match rows with
  | [] => []
  | AppRow key _ _ :: rows' => key :: row_keys rows'
  | TitleRow key _ _ :: rows' => key :: row_keys rows'
  | BlankRow :: rows' => row_keys rows'
  end.

(** * Properties *)

(** ** Dictionaries *)
Section DictFacts.
Context {V : Type}.

Lemma dict_get_set_eq (d : Dict.t V) k v : Dict.get (Dict.set d k v) k = Some v.
Proof.
  induction d as [|[k' v'] d IH]; simpl.
  - by rewrite String.eqb_refl.
  - destruct (String.eqb_spec k' k) as [->|Hne]; simpl.
    + by rewrite String.eqb_refl.
    + destruct (String.eqb_spec k' k); [done | exact IH].
Qed.

Lemma dict_get_set_ne (d : Dict.t V) k k' v :
  k <> k' -> Dict.get (Dict.set d k v) k' = Dict.get d k'.
Proof.
  intros Hne. induction d as [|[k0 v0] d IH]; simpl.
  - destruct (String.eqb_spec k k'); [done | reflexivity].
  - destruct (String.eqb_spec k0 k) as [->|Hk]; simpl.
    + destruct (String.eqb_spec k k'); [done | reflexivity].
    + destruct (String.eqb_spec k0 k'); [reflexivity | exact IH].
Qed.

Lemma dict_get_None_notin (d : Dict.t V) k :
  Dict.get d k = None <-> ~ In k (Dict.keys d).
Proof.
  induction d as [|[k' v] d IH]; simpl.
  - split; [by intros _ [] | done].
  - destruct (String.eqb_spec k' k) as [->|Hne].
    + split; [discriminate | intros H; exfalso; apply H; by left].
    + rewrite IH. split.
      * intros H [?|?]; [done | by apply H].
      * intros H Hin. apply H. by right.
Qed.

Lemma dict_set_absent (d : Dict.t V) k v :
  Dict.get d k = None -> Dict.set d k v = d ++ [(k, v)].
Proof.
  induction d as [|[k' v'] d IH]; simpl; [done|].
  destruct (String.eqb_spec k' k); [discriminate|].
  intros H. by rewrite IH.
Qed.

Lemma dict_keys_set_present (d : Dict.t V) k v :
  In k (Dict.keys d) -> Dict.keys (Dict.set d k v) = Dict.keys d.
Proof.
  induction d as [|[k' v'] d IH]; simpl; [done|].
  destruct (String.eqb_spec k' k) as [->|Hne]; [done|].
  intros [?|Hin]; [done|]. simpl. by rewrite IH.
Qed.

Lemma dict_NoDup_keys_set (d : Dict.t V) k v :
  NoDup (Dict.keys d) -> NoDup (Dict.keys (Dict.set d k v)).
Proof.
  intros Hnd. destruct (Dict.get d k) as [v0|] eqn:Hg.
  - rewrite dict_keys_set_present; [done|].
    destruct (in_dec String.string_dec k (Dict.keys d)) as [|Hn]; [done|].
    apply dict_get_None_notin in Hn. congruence.
  - rewrite dict_set_absent by done. unfold Dict.keys. rewrite map_app. simpl.
    apply dict_get_None_notin in Hg.
    apply (proj2 (NoDup_app _ _)). split; [exact Hnd|]. split.
    + intros x Hx Hx'. apply list_elem_of_In in Hx.
      apply list_elem_of_In in Hx'. destruct Hx' as [<-|[]]. by apply Hg.
    + apply NoDup_singleton.
Qed.

Lemma dict_set_set (d : Dict.t V) k v v' :
  Dict.set (Dict.set d k v) k v' = Dict.set d k v'.
Proof.
  induction d as [|[k0 v0] d IH]; simpl.
  - by rewrite String.eqb_refl.
  - destruct (String.eqb_spec k0 k) as [->|Hne]; simpl.
    + by rewrite String.eqb_refl.
    + destruct (String.eqb_spec k0 k); [done|]. by rewrite IH.
Qed.

Lemma dict_set_same (d : Dict.t V) k v :
  Dict.get d k = Some v -> Dict.set d k v = d.
Proof.
  induction d as [|[k0 v0] d IH]; simpl; [done|].
  destruct (String.eqb_spec k0 k) as [->|Hne].
  - by intros [= ->].
  - intros H. by rewrite IH.
Qed.

Lemma dict_get_Forall (P : V -> Prop) (d : Dict.t V) k v :
  Forall (fun item => P (snd item)) d -> Dict.get d k = Some v -> P v.
Proof.
  induction 1 as [|[k0 v0] d Hv _ IH]; simpl; [done|].
  destruct (String.eqb k0 k); [by intros [= <-] | exact IH].
Qed.

Lemma dict_Forall_set (P : V -> Prop) (d : Dict.t V) k v :
  Forall (fun item => P (snd item)) d -> P v ->
  Forall (fun item => P (snd item)) (Dict.set d k v).
Proof.
  intros Hd Hv. induction Hd as [|[k0 v0] d Hv0 Hd IH]; simpl.
  - by repeat constructor.
  - destruct (String.eqb k0 k); by constructor.
Qed.

Lemma dict_set_fresh (d : Dict.t V) (rest : list string) k v :
  NoDup (Dict.keys d ++ k :: rest) -> Dict.set d k v = d ++ [(k, v)].
Proof.
  intros Hnd. apply dict_set_absent, dict_get_None_notin.
  intros Hin. apply NoDup_app in Hnd as (_ & Hdisj & _).
  apply (Hdisj k); [by apply list_elem_of_In | by left].
Qed.
End DictFacts.

(** ** The ledger *)

Lemma recorded_add_timedelta (r : TimeRecord) a t d :
  recorded (add_timedelta r a t d) a t =
  Some (match recorded r a t with Some x => x + d | None => d + d end).
Proof.
  unfold recorded, add_timedelta. rewrite !dict_get_set_eq.
  unfold Dict.get_default at 1.
  unfold Dict.get_default. destruct (Dict.get r a) as [titles|]; simpl.
  - by destruct (Dict.get titles t).
  - reflexivity.
Qed.

Lemma recorded_add_timedelta_other (r : TimeRecord) a t a' t' d :
  (a, t) <> (a', t') ->
  recorded (add_timedelta r a t d) a' t' = recorded r a' t'.
Proof.
  intros Hne. unfold recorded, add_timedelta.
  destruct (String.eqb_spec a a') as [<-|Ha].
  - rewrite dict_get_set_eq. rewrite dict_get_set_ne by congruence.
    unfold Dict.get_default. by destruct (Dict.get r a).
  - by rewrite !dict_get_set_ne.
Qed.

Lemma recorded_accrue_ticks (n : nat) (r : TimeRecord) a t d x :
  recorded r a t = Some x ->
  recorded (accrue_ticks n r a t d) a t = Some (x + Z.of_nat n * d).
Proof.
  revert r x. induction n as [|n IH]; intros r x Hx.
  - simpl. rewrite Hx. f_equal. lia.
  - cbn [accrue_ticks]. erewrite IH.
    2:{ rewrite recorded_add_timedelta, Hx. reflexivity. }
    f_equal. lia.
Qed.

(** C1. A pair that has no entry is not started at zero: [add_timedelta]
    takes the added interval itself as the starting value. After [N >= 1]
    ticks of interval [d] on a pair that had no entry, the ledger holds
    [(N + 1) * d] for it, which differs from [N * d] whenever [d] is
    positive. *)
Theorem add_timedelta_fresh_pair_counts_first_tick_twice
    (r : TimeRecord) (a t : string) (d : timedelta) (n : nat) :
  recorded r a t = None ->
  recorded (accrue_ticks (S n) r a t d) a t = Some ((Z.of_nat (S n) + 1) * d)
  /\ (0 < d -> recorded (accrue_ticks (S n) r a t d) a t <> Some (Z.of_nat (S n) * d)).
Proof.
  intros Hnone.
  assert (recorded (accrue_ticks (S n) r a t d) a t
          = Some ((Z.of_nat (S n) + 1) * d)) as Heq.
  { cbn [accrue_ticks]. erewrite recorded_accrue_ticks.
    2:{ rewrite recorded_add_timedelta, Hnone. reflexivity. }
    f_equal. lia. }
  split; [exact Heq|].
  intros Hd. rewrite Heq. intros [= H]. lia.
Qed.

(** One tick of one second on the empty ledger records two seconds. *)
Example add_timedelta_first_second :
  recorded (add_timedelta TimeRecord_new "C:\editor.exe" "draft.txt"
              (timedelta_seconds 1)) "C:\editor.exe" "draft.txt"
  = Some (timedelta_seconds 2).
Proof. reflexivity. Qed.

(** ** The XML reader *)

Lemma for_each_app {A S : Type} (body : S -> A -> result S) (l1 l2 : list A) s :
  for_each body (l1 ++ l2) s = (s1 <~ for_each body l1 s ;; for_each body l2 s1).
Proof.
  revert s. induction l1 as [|x l1 IH]; intros s; simpl; [done|].
  destruct (body s x); simpl; [apply IH | done].
Qed.

(** The inner loop only touches the title dict stored under the
    application: it is the loop on that dict alone, stored back. *)
Lemma for_each_read_title (a : string) (ts : list Element) (rec : TimeRecord)
    (cur : Titles) :
  Dict.get rec a = Some cur ->
  for_each (read_title a) ts rec =
  (td <~ for_each add_title ts cur ;; Ok (Dict.set rec a td)).
Proof.
  revert rec cur. induction ts as [|e ts IH]; intros rec cur Hget; simpl.
  - by rewrite dict_set_same.
  - unfold read_title.
    replace (add_title cur e)
      with (title <~ getitem e "name" ;; time <~ read_time e ;;
            Ok (Dict.set cur title time)) by reflexivity.
    destruct (getitem e "name") as [title|]; simpl; [|done].
    destruct (read_time e) as [time|]; simpl; [|done].
    unfold Dict.get_default. rewrite Hget.
    rewrite (IH _ (Dict.set cur title time)) by apply dict_get_set_eq.
    destruct (for_each add_title ts _); simpl; [|done].
    by rewrite dict_set_set.
Qed.

Lemma read_application_eq (rec : TimeRecord) (e : Element) :
  read_application rec e =
  (a <~ getitem e "name" ;; td <~ read_titles e ;; Ok (Dict.set rec a td)).
Proof.
  unfold read_application, read_titles.
  destruct (getitem e "name") as [a|]; simpl; [|done].
  rewrite (for_each_read_title a _ _ []) by apply dict_get_set_eq.
  destruct (for_each add_title _ _); simpl; [|done].
  by rewrite dict_set_set.
Qed.

Lemma returns_getitem (e : Element) : returns (getitem e "name") = has_name e.
Proof. unfold getitem, has_name. by destruct (Dict.get _ _). Qed.

Lemma returns_read_time (e : Element) : returns (read_time e) = numeric_text e.
Proof.
  unfold read_time, numeric_text. destruct (text e) as [s|]; [|done].
  by destruct (timedelta_of_text s).
Qed.

Lemma returns_add_titles (ts : list Element) (cur : Titles) :
  returns (for_each add_title ts cur) = List.forallb title_ok ts.
Proof.
  revert cur. induction ts as [|e ts IH]; intros cur; simpl; [done|].
  unfold title_ok. rewrite <- returns_getitem, <- returns_read_time.
  replace (add_title cur e)
    with (title <~ getitem e "name" ;; time <~ read_time e ;;
          Ok (Dict.set cur title time)) by reflexivity.
  destruct (getitem e "name"); simpl; [|done].
  destruct (read_time e); simpl; [apply IH | done].
Qed.

Lemma returns_read_application (rec : TimeRecord) (e : Element) :
  returns (read_application rec e) = application_ok e.
Proof.
  rewrite read_application_eq. unfold application_ok, read_titles.
  rewrite <- returns_getitem, <- (returns_add_titles _ []).
  destruct (getitem e "name"); simpl; [|done].
  by destruct (for_each add_title _ _).
Qed.

Lemma returns_read_applications (es : list Element) (rec : TimeRecord) :
  returns (for_each read_application es rec) = List.forallb application_ok es.
Proof.
  revert rec. induction es as [|e es IH]; intros rec; simpl; [done|].
  rewrite <- (returns_read_application rec e).
  destruct (read_application rec e); simpl; [apply IH | done].
Qed.

Lemma returns_from_xml (xml : xml_text) : returns (from_xml xml) = schema_ok xml.
Proof.
  destruct xml as [root|s]; simpl; [|done]. apply returns_read_applications.
Qed.

(** C3, as the code has it. [from_xml] raises exactly when the text is not
    well-formed XML, or an [Application] child of the root has no [name],
    or a [Title] child of such an element has no [name] or a text that is
    missing or not numeric. The tag of the root plays no part: a document
    is read the same way under any root tag. *)
Theorem from_xml_raises_iff_schema_below_root_violated :
  (forall xml, returns (from_xml xml) = false <-> schema_ok xml = false)
  /\ (forall tag1 tag2 attrib1 attrib2 text1 text2 children,
        from_xml (Markup (Elem tag1 attrib1 text1 children))
        = from_xml (Markup (Elem tag2 attrib2 text2 children))).
Proof.
  split.
  - intros xml. by rewrite returns_from_xml.
  - reflexivity.
Qed.

Lemma read_application_Ok (rec rec' : TimeRecord) (e : Element) :
  read_application rec e = Ok rec' ->
  exists a td, getitem e "name" = Ok a /\ read_titles e = Ok td
               /\ rec' = Dict.set rec a td.
Proof.
  rewrite read_application_eq.
  destruct (getitem e "name") as [a|]; simpl; [|done].
  destruct (read_titles e) as [td|]; simpl; [|done].
  intros [= <-]. by exists a, td.
Qed.

(** Elements with another name leave the entry of [a] as it is. *)
Lemma read_applications_other_names (a : string) (es : list Element)
    (rec rec' : TimeRecord) :
  Forall (fun e => getitem e "name" <> Ok a) es ->
  for_each read_application es rec = Ok rec' ->
  Dict.get rec' a = Dict.get rec a.
Proof.
  intros Hes. revert rec. induction Hes as [|e es He _ IH]; intros rec; simpl.
  - by intros [= <-].
  - destruct (read_application rec e) as [rec1|] eqn:Hread; simpl; [|done].
    intros Hrest. rewrite (IH _ Hrest).
    apply read_application_Ok in Hread as (a' & td & Ha' & _ & ->).
    apply dict_get_set_ne. congruence.
Qed.

(** C10. When several [Application] children of the root carry the same
    name, the entry of that name in the ledger [from_xml] returns is the
    title dict read from the last of them alone: what the earlier ones held
    is dropped, neither merged nor summed. *)
Theorem from_xml_repeated_application_keeps_last
    (root : Element) (pre post : list Element) (e : Element) (a : string) :
  findall root "Application" = pre ++ e :: post ->
  getitem e "name" = Ok a ->
  Forall (fun e' => getitem e' "name" <> Ok a) post ->
  schema_ok (Markup root) = true ->
  exists r td, from_xml (Markup root) = Ok r
               /\ read_titles e = Ok td
               /\ Dict.get r a = Some td.
Proof.
  intros Hsplit Ha Hpost Hok.
  rewrite <- returns_from_xml in Hok.
  destruct (from_xml (Markup root)) as [r|] eqn:Hr; [clear Hok | done].
  change (for_each read_application (findall root "Application") TimeRecord_new
          = Ok r) in Hr.
  rewrite Hsplit, for_each_app in Hr.
  destruct (for_each read_application pre TimeRecord_new) as [r1|]; [|done].
  simpl in Hr.
  destruct (read_application r1 e) as [r2|] eqn:He; [|done]. simpl in Hr.
  apply read_application_Ok in He as (a' & td & Ha' & Htd & ->).
  assert (a' = a) as -> by congruence.
  exists r, td. split; [done|]. split; [done|].
  rewrite (read_applications_other_names a post _ r Hpost Hr).
  apply dict_get_set_eq.
Qed.

(** ** Writing a ledger and reading it back *)

Lemma add_timedelta_distinct_keys (r : TimeRecord) a t d :
  distinct_keys r -> distinct_keys (add_timedelta r a t d).
Proof.
  intros [Hr Ht]. unfold add_timedelta. rewrite dict_set_set. split.
  - by apply dict_NoDup_keys_set.
  - apply (dict_Forall_set (fun td : Titles => NoDup (Dict.keys td))); [done|].
    apply dict_NoDup_keys_set. unfold Dict.get_default.
    destruct (Dict.get r a) as [td|] eqn:Hget; [|constructor].
    exact (dict_get_Forall (fun td : Titles => NoDup (Dict.keys td)) _ _ _ Ht Hget).
Qed.

Lemma reachable_distinct_keys (r : TimeRecord) : reachable r -> distinct_keys r.
Proof.
  induction 1 as [|r a t d _ IH].
  - split; constructor.
  - by apply add_timedelta_distinct_keys.
Qed.

Lemma findall_application_to_xml (r : TimeRecord) tag0 attrib0 text0 :
  findall (Elem tag0 attrib0 text0 (List.map application_to_xml r)) "Application"
  = List.map application_to_xml r.
Proof.
  unfold findall. simpl. induction r as [|item r IH]; simpl; [done|].
  by rewrite IH.
Qed.

Lemma findall_title_to_xml (item : string * Titles) :
  findall (application_to_xml item) "Title" = List.map title_to_xml (snd item).
Proof.
  unfold findall. simpl. induction (snd item) as [|x td IH]; simpl; [done|].
  by rewrite IH.
Qed.

Lemma plain_xml_chars (s : string) : plain s = true -> xml_chars s = true.
Proof.
  induction s as [|c s IH]; [done|]. cbn [plain xml_chars].
  intros [Hc Hs]%andb_prop. unfold xml_char. cbn zeta. by rewrite Hc, IH.
Qed.

Lemma plain_read_back (s : string) : plain s = true -> attribute_read_back s = s.
Proof.
  induction s as [|c s IH]; [done|]. cbn [plain attribute_read_back].
  intros [Hc Hs]%andb_prop.
  destruct (Ascii.eqb_spec c "013"%char) as [->|_]; [discriminate Hc|].
  destruct (Ascii.eqb_spec c "010"%char) as [->|_]; [discriminate Hc|].
  destruct (Ascii.eqb_spec c "009"%char) as [->|_]; [discriminate Hc|].
  cbn [orb]. by rewrite IH.
Qed.

Lemma plain_titles_as_written (titles : Titles) :
  List.forallb (fun t : string * timedelta => plain (fst t)) titles = true ->
  List.forallb attributes_are_xml (List.map title_to_xml titles) = true
  /\ List.map as_written (List.map title_to_xml titles)
     = List.map title_to_xml titles.
Proof.
  induction titles as [|[t d] titles IH]; [done|]. cbn [List.forallb List.map fst].
  intros [Ht Hts]%andb_prop. destruct (IH Hts) as [IHx IHw].
  cbn [title_to_xml attributes_are_xml as_written List.forallb List.map fst snd].
  rewrite (plain_xml_chars t Ht), (plain_read_back t Ht), IHx, IHw. by split.
Qed.

Lemma plain_names_as_written (r : TimeRecord) :
  plain_names r = true ->
  List.forallb attributes_are_xml (List.map application_to_xml r) = true
  /\ List.map as_written (List.map application_to_xml r)
     = List.map application_to_xml r.
Proof.
  unfold plain_names.
  induction r as [|[a titles] r IH]; [done|]. cbn [List.forallb List.map fst snd].
  intros [[Ha Hts]%andb_prop Hr]%andb_prop. destruct (IH Hr) as [IHx IHw].
  destruct (plain_titles_as_written titles Hts) as [Hx Hw].
  cbn [application_to_xml attributes_are_xml as_written List.forallb List.map
       fst snd].
  rewrite (plain_xml_chars a Ha), (plain_read_back a Ha), Hx, Hw, IHx, IHw.
  by split.
Qed.

(** With plain names the text of [to_xml] denotes the tree that [to_xml]
    built. *)
Lemma to_xml_plain_names (r : TimeRecord) :
  plain_names r = true ->
  to_xml r
  = Ok (Markup (Elem "TimeRecord" [] None (List.map application_to_xml r))).
Proof.
  intros Hplain. destruct (plain_names_as_written r Hplain) as [Hx Hw].
  unfold to_xml, parseString_tostring, toprettyxml.
  cbn [attributes_are_xml List.forallb andb]. rewrite Hx. cbn [bind as_written].
  by rewrite Hw.
Qed.

(** A name with a control character other than the tab and the line ends
    makes [to_xml] raise. *)
Lemma to_xml_raises (r : TimeRecord) :
  List.forallb attributes_are_xml (List.map application_to_xml r) = false ->
  to_xml r = Raise ExpatError.
Proof.
  intros Hbad. unfold to_xml, parseString_tostring.
  cbn [attributes_are_xml List.forallb andb]. by rewrite Hbad.
Qed.

Lemma add_titles_reread (td cur : Titles) :
  NoDup (Dict.keys cur ++ Dict.keys td) ->
  for_each add_title (List.map title_to_xml td) cur = for_each reread_title td cur.
Proof.
  revert cur. induction td as [|[t d] td IH]; intros cur Hnd; [done|].
  cbn [List.map for_each]. unfold add_title at 1, reread_title at 1.
  unfold getitem, read_time, reread.
  cbn [title_to_xml attrib text fst snd Dict.get String.eqb Ascii.eqb Bool.eqb bind].
  destruct (timedelta_of_text (str_total_seconds d)) as [d'|]; cbn [bind]; [|done].
  simpl in Hnd. rewrite (dict_set_fresh cur (Dict.keys td)) by done.
  apply IH. unfold Dict.keys in *. rewrite map_app. simpl.
  by rewrite <- app_assoc.
Qed.

Lemma read_applications_reread (r acc : TimeRecord) :
  NoDup (Dict.keys acc ++ Dict.keys r) ->
  Forall (fun item => NoDup (Dict.keys (snd item))) r ->
  for_each read_application (List.map application_to_xml r) acc
  = for_each reread_application r acc.
Proof.
  revert acc. induction r as [|[a td] r IH]; intros acc Hnd Htd; [done|].
  apply Forall_cons in Htd as [Ha Htd]. simpl in Hnd, Ha.
  cbn [List.map for_each]. rewrite read_application_eq.
  unfold read_titles, reread_application at 1, reread_titles.
  rewrite findall_title_to_xml. cbn [fst snd].
  rewrite (add_titles_reread td []) by done.
  unfold getitem. cbn -[Dict.set for_each List.map reread_title].
  destruct (for_each reread_title td []) as [td'|]; cbn [bind]; [|done].
  rewrite (dict_set_fresh acc (Dict.keys r)) by done.
  apply IH; [|done]. unfold Dict.keys in *. rewrite map_app. simpl.
  by rewrite <- app_assoc.
Qed.

(** Writing a ledger with plain names and reading the text is re-reading
    each of its durations, and nothing else. *)
Lemma from_xml_to_xml_reread (r : TimeRecord) :
  distinct_keys r ->
  plain_names r = true ->
  exists doc, to_xml r = Ok doc /\ from_xml doc = reread_ledger r.
Proof.
  intros [Hnd Htd] Hplain. eexists. split; [by apply to_xml_plain_names|].
  unfold from_xml. cbn [fromstring bind]. rewrite findall_application_to_xml.
  by apply read_applications_reread.
Qed.



Lemma reread_titles_exact (td cur : Titles) :
  Forall rereads_exactly (Dict.values td) ->
  for_each reread_title td cur = Ok (cur ++ td).
Proof.
  revert cur. induction td as [|[t d] td IH]; intros cur Hexact; cbn [for_each].
  - by rewrite app_nil_r.
  - apply Forall_cons in Hexact as [Hd Hexact]. simpl in Hd.
    unfold reread_title at 1, reread. cbn [fst snd]. rewrite Hd. cbn [bind].
    rewrite (IH _ Hexact). by rewrite <- app_assoc.
Qed.

Lemma reread_ledger_exact (r acc : TimeRecord) :
  Forall rereads_exactly (durations r) ->
  for_each reread_application r acc = Ok (acc ++ r).
Proof.
  revert acc. induction r as [|[a td] r IH]; intros acc Hexact; cbn [for_each].
  - by rewrite app_nil_r.
  - unfold durations in Hexact. simpl in Hexact.
    apply Forall_app in Hexact as [Htd Hexact].
    unfold reread_application at 1, reread_titles. cbn [fst snd].
    rewrite (reread_titles_exact td [] Htd). cbn [bind app].
    rewrite (IH _ Hexact). by rewrite <- app_assoc.
Qed.

Lemma from_xml_to_xml_exact (r : TimeRecord) :
  distinct_keys r ->
  plain_names r = true ->
  Forall rereads_exactly (durations r) ->
  exists doc, to_xml r = Ok doc /\ from_xml doc = Ok r.
Proof.
  intros Hkeys Hplain Hexact.
  destruct (from_xml_to_xml_reread r Hkeys Hplain) as (doc & Hdoc & Hread).
  exists doc. split; [done|]. rewrite Hread.
  exact (reread_ledger_exact r [] Hexact).
Qed.


(** ** Persistence *)

(** C9. When there is no [record.xml], [load_record] returns the empty
    ledger and raises nothing. *)
Theorem load_record_absent_file_gives_empty_ledger (fs : FileSystem) :
  fs !! record_xml = None -> load_record fs = Ok TimeRecord_new.
Proof. intros Hnone. unfold load_record, read_file. by rewrite Hnone. Qed.

(** The reader raises nothing but its own four kinds of error. *)
Lemma add_titles_raises (ts : list Element) (cur : Titles) (x : exception) :
  for_each add_title ts cur = Raise x -> reader_error x = true.
Proof.
  revert cur. induction ts as [|t ts IH]; intros cur; simpl; [done|].
  unfold add_title at 1, getitem, read_time.
  destruct (Dict.get (attrib t) "name") as [nm|]; simpl; [|by intros [= <-]].
  destruct (text t) as [txt|]; simpl; [|by intros [= <-]].
  destruct (timedelta_of_text txt) as [d|]; simpl; [apply IH | by intros [= <-]].
Qed.

Lemma read_applications_raises (es : list Element) (rec : TimeRecord)
    (x : exception) :
  for_each read_application es rec = Raise x -> reader_error x = true.
Proof.
  revert rec. induction es as [|e es IH]; intros rec; simpl; [done|].
  rewrite read_application_eq. unfold getitem.
  destruct (Dict.get (attrib e) "name") as [nm|]; simpl; [|by intros [= <-]].
  destruct (read_titles e) as [td|y] eqn:Htd; simpl; [apply IH|].
  intros [= <-]. exact (add_titles_raises _ _ _ Htd).
Qed.

Lemma from_xml_raises (xml : xml_text) (x : exception) :
  from_xml xml = Raise x -> reader_error x = true.
Proof.
  destruct xml as [root|junk]; simpl; [apply read_applications_raises|].
  by intros [= <-].
Qed.

(** A file that is there is read by [from_xml], whose errors pass through. *)
Lemma load_record_present (fs : FileSystem) (content : xml_text) :
  fs !! record_xml = Some content -> load_record fs = from_xml content.
Proof.
  intros Hsome. unfold load_record, read_file. rewrite Hsome. cbn [bind].
  destruct (from_xml content) as [r|x] eqn:Hread; [done|].
  apply from_xml_raises in Hread. by destruct x.
Qed.

(** C4, as the code has it. [save_record] opens [record.xml] for writing,
    which cuts it to length zero, then evaluates [to_xml] and writes its
    text into that same file. No other file is touched at any point, so
    there is no temporary file and no rename. A save that completes leaves
    the serialized ledger in the file; a process that ends between the
    open and the write leaves the file empty, and so does a save in which
    [to_xml] raises. *)
Theorem save_record_overwrites_in_place (record : TimeRecord) (fs : FileSystem) :
  open_w fs record_xml !! record_xml = Some (NotXml "")
  /\ match to_xml record with
     | Ok content =>
         save_record_crash_states record fs
         = [fs; open_w fs record_xml; save_record record fs]
         /\ save_record record fs !! record_xml = Some content
     | Raise _ =>
         save_record_crash_states record fs = [fs; open_w fs record_xml]
         /\ save_record record fs = open_w fs record_xml
     end
  /\ (forall fs' path,
        In fs' (save_record_crash_states record fs) ->
        path <> record_xml -> fs' !! path = fs !! path).
Proof.
  split; [apply lookup_insert_eq|].
  unfold save_record_crash_states, save_record_trace, save_record.
  destruct (to_xml record) as [content|x]; (split; [split; [done|]|]).
  - unfold write_close. apply lookup_insert_eq.
  - intros fs' path Hin Hne. unfold write_close, open_w in Hin.
    simpl in Hin. destruct Hin as [<-|[<-|[<-|[]]]]; [done| |].
    + by rewrite lookup_insert_ne.
    + by rewrite !lookup_insert_ne.
  - done.
  - intros fs' path Hin Hne. unfold open_w in Hin.
    simpl in Hin. destruct Hin as [<-|[<-|[]]]; [done|].
    by rewrite lookup_insert_ne.
Qed.

(** ** The controller *)

Lemma handle_tick_paused (self : TimeUseApp) (ev : event) :
  paused self = true -> is_tick ev = true -> handle self ev = self.
Proof.
  intros Hp Hev. destruct ev; try discriminate; simpl.
  - unfold on_sample_tick. by rewrite Hp.
  - unfold on_save_tick. by rewrite Hp.
Qed.

Lemma run_ticks_paused (self : TimeUseApp) (ticks : list event) :
  paused self = true -> List.forallb is_tick ticks = true -> run self ticks = self.
Proof.
  intros Hp. induction ticks as [|ev ticks IH]; simpl; [done|].
  intros [Hev Hticks]%andb_prop. unfold run in *. simpl.
  rewrite handle_tick_paused by done. by apply IH.
Qed.

(** C5. While the application is paused, sample ticks and save ticks in any
    number change nothing: the ledger, the files and the number of saves
    stay as they were. What is handled after them, such as the key that
    resumes recording and the ticks that follow it, proceeds as if the
    paused ticks had never fired: nothing is caught up. *)
Theorem paused_ticks_are_dropped (self : TimeUseApp) (ticks : list event) :
  paused self = true ->
  List.forallb is_tick ticks = true ->
  record (run self ticks) = record self
  /\ files (run self ticks) = files self
  /\ saves (run self ticks) = saves self
  /\ (forall rest, run self (ticks ++ Key_n :: rest) = run self (Key_n :: rest)).
Proof.
  intros Hp Hticks. rewrite (run_ticks_paused self ticks Hp Hticks).
  repeat split. intros rest. unfold run. rewrite fold_left_app.
  fold (run self ticks). by rewrite (run_ticks_paused self ticks Hp Hticks).
Qed.

Lemma handle_sort_modes_exclusive (self : TimeUseApp) (ev : event) :
  sort_modes_exclusive self -> sort_modes_exclusive (handle self ev).
Proof.
  unfold sort_modes_exclusive. intros Hex. destruct ev; simpl.
  - unfold on_sample_tick. destruct (paused self); [done|].
    by destruct (error (get_active_window_info os)).
  - unfold on_save_tick. by destruct (paused self).
  - done.
  - by right.
  - by left.
Qed.

Lemma app_reachable_sort_modes_exclusive (self : TimeUseApp) :
  app_reachable self -> sort_modes_exclusive self.
Proof.
  induction 1 as [fs self Hmount|self ev _ IH].
  - unfold on_mount in Hmount. destruct (load_record fs); [|done].
    injection Hmount as <-. by right.
  - by apply handle_sort_modes_exclusive.
Qed.

(** C7. In every state the application reaches at most one sort mode is
    active. The sort-by-name key clears the time mode and leaves the name
    mode active, and the other way round; pressed while its own mode is
    active, a sort key flips the direction of that mode and keeps it
    active. *)
Theorem sort_keys_exclusive_and_toggle (self : TimeUseApp) :
  app_reachable self ->
  sort_modes_exclusive self
  /\ (sort_by_time_up (handle self Key_p) = None
      /\ sort_by_process_up (handle self Key_p) <> None)
  /\ (sort_by_process_up (handle self Key_t) = None
      /\ sort_by_time_up (handle self Key_t) <> None)
  /\ (forall up, sort_by_process_up self = Some up ->
                 sort_by_process_up (handle self Key_p) = Some (negb up))
  /\ (forall up, sort_by_time_up self = Some up ->
                 sort_by_time_up (handle self Key_t) = Some (negb up)).
Proof.
  intros Hreach. split; [by apply app_reachable_sort_modes_exclusive|].
  simpl. repeat split.
  - by destruct (sort_by_process_up self).
  - by destruct (sort_by_time_up self).
  - by intros up ->.
  - by intros up ->.
Qed.

(** The sampler reports an error exactly when one of its win32 calls
    raises. *)
Lemma get_active_window_info_error (os : OS) :
  error (get_active_window_info os) <> None <->
  exists msg, query_window os = Fails msg.
Proof.
  unfold get_active_window_info.
  destruct (query_window os) as [[[p nm] ttl]|msg]; simpl.
  - split; [done | by intros [msg [=]]].
  - split; [by exists msg | done].
Qed.

Lemma query_window_first_failure (os : OS) (msg : string) :
  GetForegroundWindow os = Fails msg -> query_window os = Fails msg.
Proof. intros H. unfold query_window. by rewrite H. Qed.

(** C8. The sampler is a total function: when a call to the operating
    system raises, it returns the dict with the ["error"] key instead of
    raising. The sample tick that gets such a dict leaves the application,
    and so the ledger, exactly as it was, and the events after it are
    handled as usual. *)
Theorem failed_sample_is_skipped (self : TimeUseApp) (os : OS) (msg : string) :
  query_window os = Fails msg ->
  get_active_window_info os =
    {| error := Some msg; process_id := -1;
       process_name := "unknown"; title := "unknown" |}
  /\ handle self (SampleTick os) = self
  /\ record (handle self (SampleTick os)) = record self
  /\ (forall rest, run self (SampleTick os :: rest) = run self rest).
Proof.
  intros Hq.
  assert (handle self (SampleTick os) = self) as Hsame.
  { simpl. unfold on_sample_tick, get_active_window_info. rewrite Hq. simpl.
    by destruct (paused self). }
  split; [|split; [|split]].
  - unfold get_active_window_info. by rewrite Hq.
  - exact Hsame.
  - by rewrite Hsame.
  - intros rest. unfold run. simpl fold_left. fold (handle self (SampleTick os)).
    by rewrite Hsame.
Qed.

(** A sample that succeeds while recording adds one second to its pair. *)
Lemma successful_sample_accrues (self : TimeUseApp) (os : OS) p nm ttl :
  paused self = false ->
  query_window os = Answer (p, nm, ttl) ->
  record (handle self (SampleTick os))
  = add_timedelta (record self) nm ttl (timedelta_seconds 1).
Proof.
  intros Hp Hq. simpl. unfold on_sample_tick, get_active_window_info.
  by rewrite Hp, Hq.
Qed.

(** ** Sorting and the table *)

Lemma string_compare_as_OT (s1 s2 : string) :
  String.compare s1 s2 = String_as_OT.compare s1 s2.
Proof.
  revert s2. induction s1 as [|c1 s1 IH]; intros [|c2 s2]; simpl; try reflexivity.
  all: change (Ascii_as_OT.compare c1 c2) with (Ascii.compare c1 c2).
  all: destruct (Ascii.compare c1 c2); [apply IH | reflexivity | reflexivity].
Qed.

Lemma string_leb_iff (s1 s2 : string) :
  String.leb s1 s2 = true <-> String_as_OT.lt s1 s2 \/ s1 = s2.
Proof.
  unfold String.leb. rewrite string_compare_as_OT.
  destruct (String_as_OT.compare_spec s1 s2) as [Heq|Hlt|Hgt].
  - split; [by right | done].
  - split; [by left | done].
  - split; [done|]. intros [Hlt| ->]; exfalso.
    + exact (StrictOrder_Irreflexive s1 (StrictOrder_Transitive _ _ _ Hlt Hgt)).
    + exact (StrictOrder_Irreflexive s2 Hgt).
Qed.

Lemma string_leb_trans (s1 s2 s3 : string) :
  String.leb s1 s2 = true -> String.leb s2 s3 = true -> String.leb s1 s3 = true.
Proof.
  rewrite !string_leb_iff. intros [H12| ->] [H23| ->]; auto.
  left. exact (StrictOrder_Transitive _ _ _ H12 H23).
Qed.

Lemma Z_leb_total (x y : Z) : Z.leb x y = true \/ Z.leb y x = true.
Proof. rewrite !Z.leb_le. lia. Qed.

Lemma Z_leb_trans (x y z : Z) :
  Z.leb x y = true -> Z.leb y z = true -> Z.leb x z = true.
Proof. rewrite !Z.leb_le. lia. Qed.

Section SortingFacts.
Context {A K : Type} (key : A -> K) (leb : K -> K -> bool).
Hypothesis leb_total : forall x y, leb x y = true \/ leb y x = true.
Hypothesis leb_trans :
  forall x y z, leb x y = true -> leb y z = true -> leb x z = true.

Lemma in_front_total (reverse : bool) (x y : A) :
  in_front key leb reverse x y = true \/ in_front key leb reverse y x = true.
Proof using leb_total. unfold in_front. destruct reverse; apply leb_total. Qed.

Lemma in_front_trans (reverse : bool) (x y z : A) :
  in_front key leb reverse x y = true -> in_front key leb reverse y z = true ->
  in_front key leb reverse x z = true.
Proof using leb_trans. unfold in_front. destruct reverse; eauto. Qed.

Lemma insert_sorted_Permutation (reverse : bool) (x : A) (l : list A) :
  Permutation (insert_sorted key leb reverse x l) (x :: l).
Proof.
  induction l as [|y l IH]; simpl; [done|].
  destruct (in_front key leb reverse x y); [done|].
  rewrite IH. apply perm_swap.
Qed.

Lemma sorted_Permutation (reverse : bool) (l : list A) :
  Permutation (sorted key leb reverse l) l.
Proof.
  induction l as [|x l IH]; simpl; [done|].
  rewrite insert_sorted_Permutation. by constructor.
Qed.

Lemma insert_sorted_StronglySorted (reverse : bool) (x : A) (l : list A) :
  StronglySorted (fun a b => in_front key leb reverse a b = true) l ->
  StronglySorted (fun a b => in_front key leb reverse a b = true)
                 (insert_sorted key leb reverse x l).
Proof using leb_total leb_trans.
  induction 1 as [|y l Hl IH Hy]; simpl.
  - repeat constructor.
  - destruct (in_front key leb reverse x y) eqn:Hxy.
    + constructor; [by constructor|]. constructor; [done|].
      eapply Forall_impl; [exact Hy|]. intros z Hz.
      by apply (in_front_trans reverse x y z).
    + constructor; [done|].
      rewrite insert_sorted_Permutation. constructor; [|done].
      destruct (in_front_total reverse x y); congruence.
Qed.

Lemma sorted_StronglySorted (reverse : bool) (l : list A) :
  StronglySorted (fun a b => in_front key leb reverse a b = true)
                 (sorted key leb reverse l).
Proof using leb_total leb_trans.
  induction l as [|x l IH]; simpl; [constructor|].
  by apply insert_sorted_StronglySorted.
Qed.
End SortingFacts.

Lemma StronglySorted_map {A B : Type} (R : B -> B -> Prop) (f : A -> B)
    (l : list A) :
  StronglySorted (fun x y => R (f x) (f y)) l -> StronglySorted R (List.map f l).
Proof.
  induction 1 as [|x l _ IH Hx]; simpl; constructor; [done|].
  by apply Forall_map.
Qed.

(** Items sorted by name with [reverse=True] stand in descending order. *)
Lemma sort_items_reverse_descending {V : Type} (d : Dict.t V) :
  StronglySorted (fun a b => String.leb b a = true)
                 (Dict.keys (sort_items (Some true) d))
  /\ Permutation (sort_items (Some true) d) d.
Proof.
  split.
  - apply StronglySorted_map.
    exact (sorted_StronglySorted fst String.leb String.leb_total
             string_leb_trans true d).
  - apply sorted_Permutation.
Qed.

Lemma app_keys_app (rows1 rows2 : list Row) :
  app_keys (rows1 ++ rows2) = app_keys rows1 ++ app_keys rows2.
Proof.
  induction rows1 as [|row rows1 IH]; simpl; [done|].
  destruct row; simpl; by rewrite IH.
Qed.

Lemma app_keys_title_rows (app : string) (td : list (string * timedelta)) :
  app_keys (List.map (title_row app) td) = [].
Proof. by induction td. Qed.

Lemma app_keys_refresh_table (up_process up_time : option bool)
    (data : list (string * Titles)) :
  app_keys (List.flat_map (application_rows up_process up_time) data)
  = List.map fst data.
Proof.
  induction data as [|[app titles] data IH]; simpl; [done|].
  rewrite !app_keys_app, app_keys_title_rows, IH. reflexivity.
Qed.

(** C6, as the code has it. At startup the name mode is the active one with
    its flag set, and [refresh_table] passes that flag as [reverse]: the
    table lists every application of the ledger once, by path in
    descending order, and under each application its titles in descending
    order as well. *)
Theorem startup_table_is_sorted_by_name_descending
    (fs : FileSystem) (self : TimeUseApp) :
  on_mount fs = Ok self ->
  sort_by_process_up self = Some true
  /\ sort_by_time_up self = None
  /\ StronglySorted (fun a b => String.leb b a = true) (app_keys (table self))
  /\ Permutation (app_keys (table self)) (Dict.keys (record self))
  /\ (forall app titles,
        exists td,
          application_rows (sort_by_process_up self) (sort_by_time_up self)
                           (app, titles)
          = AppRow app (basename app) (sum_values titles)
              :: List.map (title_row app) td ++ [BlankRow]
          /\ StronglySorted (fun a b => String.leb b a = true) (Dict.keys td)
          /\ Permutation td titles).
Proof.
  unfold on_mount. destruct (load_record fs) as [loaded|]; [|done].
  intros [= <-]. cbn [do_refresh_table sort_by_process_up sort_by_time_up
                      table record].
  split; [done|]. split; [done|].
  unfold refresh_table. rewrite app_keys_refresh_table.
  destruct (sort_items_reverse_descending loaded) as [Hsorted Hperm].
  split; [exact Hsorted|]. split; [by apply Permutation_map|].
  intros app titles. exists (sort_items (Some true) titles).
  destruct (sort_items_reverse_descending titles) as [Hs Hp]. by repeat split.
Qed.

(** * Further properties of the code *)

(** ** The ledger, beyond the first tick *)

Lemma dict_keys_set {V : Type} (d : Dict.t V) k v :
  Dict.keys (Dict.set d k v)
  = match Dict.get d k with
    | Some _ => Dict.keys d
    | None => Dict.keys d ++ [k]
    end.
Proof.
  destruct (Dict.get d k) as [v0|] eqn:Hget.
  - apply dict_keys_set_present.
    destruct (in_dec String.string_dec k (Dict.keys d)) as [|Hn]; [done|].
    apply dict_get_None_notin in Hn. congruence.
  - rewrite dict_set_absent by done. unfold Dict.keys. by rewrite map_app.
Qed.

Lemma dict_set_nonempty {V : Type} (d : Dict.t V) k v : Dict.set d k v <> [].
Proof. destruct d as [|[k0 v0] d]; simpl; [done|]. by destruct (String.eqb k0 k). Qed.

(** X1. On a pair that already has an entry, [add_timedelta] adds exactly
    the interval: [n] ticks of interval [d] on a pair holding [x] leave
    [x + n * d]. *)
Theorem accrue_on_existing_pair_adds_exactly
    (n : nat) (r : TimeRecord) (a t : string) (d x : timedelta) :
  recorded r a t = Some x ->
  recorded (accrue_ticks n r a t d) a t = Some (x + Z.of_nat n * d).
Proof. apply recorded_accrue_ticks. Qed.

(** X2. [add_timedelta] changes the entry of its own (application, title)
    pair only: every other pair holds what it held, and is absent if it was
    absent. *)
Theorem add_timedelta_leaves_other_pairs
    (r : TimeRecord) (a t a' t' : string) (d : timedelta) :
  (a, t) <> (a', t') ->
  recorded (add_timedelta r a t d) a' t' = recorded r a' t'.
Proof. apply recorded_add_timedelta_other. Qed.

(** X3. [add_timedelta] keeps the insertion order and removes nothing: an
    application that is present keeps its place and a new one goes to the
    end; the same holds for the titles under the application; the title
    dicts of the other applications are the same. *)
Theorem add_timedelta_keeps_insertion_order
    (r : TimeRecord) (a t : string) (d : timedelta) :
  Dict.keys (add_timedelta r a t d)
  = match Dict.get r a with
    | Some _ => Dict.keys r
    | None => Dict.keys r ++ [a]
    end
  /\ (exists titles',
        Dict.get (add_timedelta r a t d) a = Some titles'
        /\ Dict.keys titles'
           = let titles := Dict.get_default r a [] in
             match Dict.get titles t with
             | Some _ => Dict.keys titles
             | None => Dict.keys titles ++ [t]
             end)
  /\ (forall a', a' <> a ->
        Dict.get (add_timedelta r a t d) a' = Dict.get r a').
Proof.
  unfold add_timedelta. rewrite dict_set_set. split; [apply dict_keys_set|].
  split.
  - eexists. split; [apply dict_get_set_eq|]. apply dict_keys_set.
  - intros a' Hne. apply dict_get_set_ne. congruence.
Qed.

Lemma add_timedelta_well_formed (r : TimeRecord) a t d :
  Forall (fun item : string * Titles =>
            NoDup (Dict.keys (snd item)) /\ snd item <> []) r ->
  Forall (fun item : string * Titles =>
            NoDup (Dict.keys (snd item)) /\ snd item <> [])
         (add_timedelta r a t d).
Proof.
  intros Hr. unfold add_timedelta. rewrite dict_set_set.
  apply (dict_Forall_set (fun td : Titles => NoDup (Dict.keys td) /\ td <> []));
    [done|].
  split; [|apply dict_set_nonempty].
  apply dict_NoDup_keys_set. unfold Dict.get_default.
  destruct (Dict.get r a) as [td|] eqn:Hget; [|constructor].
  exact (proj1 (dict_get_Forall
                  (fun td : Titles => NoDup (Dict.keys td) /\ td <> [])
                  _ _ _ Hr Hget)).
Qed.

(** X4. Every ledger built by calls of [add_timedelta] is a proper dict of
    dicts: its applications are distinct, the titles under each application
    are distinct, and no application is left without a title. *)
Theorem reachable_ledger_well_formed (r : TimeRecord) :
  reachable r ->
  NoDup (Dict.keys r)
  /\ Forall (fun item : string * Titles =>
               NoDup (Dict.keys (snd item)) /\ snd item <> []) r.
Proof.
  induction 1 as [|r a t d _ [IHk IHt]].
  - split; constructor.
  - split; [|by apply add_timedelta_well_formed].
    unfold add_timedelta. rewrite dict_set_set. by apply dict_NoDup_keys_set.
Qed.

(** ** The XML reader on any document *)

Lemma add_titles_NoDup (ts : list Element) (cur td : Titles) :
  NoDup (Dict.keys cur) ->
  for_each add_title ts cur = Ok td -> NoDup (Dict.keys td).
Proof.
  revert cur. induction ts as [|e ts IH]; intros cur Hcur; simpl.
  - by intros [= <-].
  - unfold add_title at 1.
    destruct (getitem e "name") as [nm|]; simpl; [|done].
    destruct (read_time e) as [time|]; simpl; [|done].
    apply IH. by apply dict_NoDup_keys_set.
Qed.

Lemma read_applications_distinct_keys (es : list Element) (rec r : TimeRecord) :
  distinct_keys rec ->
  for_each read_application es rec = Ok r -> distinct_keys r.
Proof.
  revert rec. induction es as [|e es IH]; intros rec Hrec; simpl.
  - by intros [= <-].
  - destruct (read_application rec e) as [rec1|] eqn:Hread; simpl; [|done].
    apply IH.
    apply read_application_Ok in Hread as (a & td & _ & Htd & ->).
    destruct Hrec as [Hk Ht]. split.
    + by apply dict_NoDup_keys_set.
    + apply (dict_Forall_set (fun td : Titles => NoDup (Dict.keys td))); [done|].
      apply (add_titles_NoDup (findall e "Title") [] td); [constructor | exact Htd].
Qed.

Lemma from_xml_Ok_distinct_keys (xml : xml_text) (r : TimeRecord) :
  from_xml xml = Ok r -> distinct_keys r.
Proof.
  destruct xml as [root|junk]; [|done]. cbn [from_xml fromstring bind].
  apply read_applications_distinct_keys. split; constructor.
Qed.

(** X5. Whatever document [from_xml] accepts, also one that repeats
    applications or titles, the ledger it returns is a proper dict of
    dicts: distinct applications, and distinct titles under each. *)
Theorem from_xml_result_has_distinct_keys (xml : xml_text) (r : TimeRecord) :
  from_xml xml = Ok r -> distinct_keys r.
Proof. apply from_xml_Ok_distinct_keys. Qed.

Lemma add_titles_other_names (t : string) (ts : list Element) (cur td : Titles) :
  Forall (fun e => getitem e "name" <> Ok t) ts ->
  for_each add_title ts cur = Ok td ->
  Dict.get td t = Dict.get cur t.
Proof.
  intros Hts. revert cur. induction Hts as [|e ts He _ IH]; intros cur; simpl.
  - by intros [= <-].
  - unfold add_title at 1.
    destruct (getitem e "name") as [nm|]; simpl; [|done].
    destruct (read_time e) as [time|]; simpl; [|done].
    intros Hrest. rewrite (IH _ Hrest). apply dict_get_set_ne. congruence.
Qed.

Lemma read_titles_last_wins (e te : Element) (pre post : list Element)
    (t : string) (td : Titles) :
  findall e "Title" = pre ++ te :: post ->
  getitem te "name" = Ok t ->
  Forall (fun e' => getitem e' "name" <> Ok t) post ->
  read_titles e = Ok td ->
  exists time, read_time te = Ok time /\ Dict.get td t = Some time.
Proof.
  intros Hsplit Ht Hpost. unfold read_titles.
  rewrite Hsplit, for_each_app.
  destruct (for_each add_title pre []) as [cur|]; [|done].
  cbn [bind for_each]. unfold add_title at 1. rewrite Ht. cbn [bind].
  destruct (read_time te) as [time|]; [|done]. cbn [bind].
  intros Hrest. exists time. split; [done|].
  rewrite (add_titles_other_names t post _ td Hpost Hrest).
  apply dict_get_set_eq.
Qed.

(** X6. What [from_xml] records for a pair is the text of the last [Title]
    element of that title inside the last [Application] element of that
    application: earlier [Title] elements of the same name in it, and
    everything in earlier [Application] elements of the same name, count
    for nothing. *)
Theorem from_xml_records_last_title_of_last_application
    (root : Element) (apre apost : list Element) (e : Element) (a : string)
    (pre post : list Element) (te : Element) (t : string) :
  findall root "Application" = apre ++ e :: apost ->
  getitem e "name" = Ok a ->
  Forall (fun e' => getitem e' "name" <> Ok a) apost ->
  findall e "Title" = pre ++ te :: post ->
  getitem te "name" = Ok t ->
  Forall (fun e' => getitem e' "name" <> Ok t) post ->
  schema_ok (Markup root) = true ->
  exists r time,
    from_xml (Markup root) = Ok r
    /\ read_time te = Ok time
    /\ recorded r a t = Some time.
Proof.
  intros Hsplit Ha Hapost Htsplit Ht Hpost Hok.
  rewrite <- returns_from_xml in Hok.
  destruct (from_xml (Markup root)) as [r|] eqn:Hr; [clear Hok | done].
  change (for_each read_application (findall root "Application") TimeRecord_new
          = Ok r) in Hr.
  rewrite Hsplit, for_each_app in Hr.
  destruct (for_each read_application apre TimeRecord_new) as [r1|]; [|done].
  cbn [bind for_each] in Hr.
  destruct (read_application r1 e) as [r2|] eqn:He; [|done]. cbn [bind] in Hr.
  apply read_application_Ok in He as (a' & td & Ha' & Htd & ->).
  assert (a' = a) as -> by congruence.
  destruct (read_titles_last_wins e te pre post t td Htsplit Ht Hpost Htd)
    as (time & Htime & Hget).
  exists r, time. split; [done|]. split; [done|].
  unfold recorded.
  rewrite (read_applications_other_names a apost _ r Hapost Hr).
  by rewrite dict_get_set_eq.
Qed.

(** ** Saving and loading *)




(** X10. A save replaces the previous one altogether: saving a second
    ledger leaves the files as if the first save had not happened; saving
    the same ledger twice is the same as saving it once. *)
Theorem save_record_last_write_wins (r1 r2 : TimeRecord) (fs : FileSystem) :
  save_record r2 (save_record r1 fs) = save_record r2 fs.
Proof.
  unfold save_record, write_close, open_w.
  destruct (to_xml r1), (to_xml r2); by rewrite !insert_insert_eq.
Qed.


(** ** The sampler and the controller *)

(** X12. The sampler returns a dict without ["error"] exactly when each of
    its five win32 calls answers, and the dict then holds the process id
    that [GetWindowThreadProcessId] gave for the foreground window, the
    module file name of that process and the text of that window. *)
Theorem sampler_succeeds_iff_all_calls_answer (os : OS) :
  error (get_active_window_info os) = None <->
  exists window t p h nm ttl,
    GetForegroundWindow os = Answer window
    /\ GetWindowThreadProcessId os window = Answer (t, p)
    /\ OpenProcess os p = Answer h
    /\ GetModuleFileNameEx os h = Answer nm
    /\ GetWindowText os window = Answer ttl
    /\ get_active_window_info os =
         {| error := None; process_id := p; process_name := nm; title := ttl |}.
Proof.
  unfold get_active_window_info, query_window. split.
  - destruct (GetForegroundWindow os) as [window|]; cbn [and_then]; [|done].
    destruct (GetWindowThreadProcessId os window) as [[t p]|] eqn:Htp;
      cbn [and_then snd]; [|done].
    destruct (OpenProcess os p) as [h|] eqn:Hh; cbn [and_then]; [|done].
    destruct (GetModuleFileNameEx os h) as [nm|] eqn:Hnm; cbn [and_then]; [|done].
    destruct (GetWindowText os window) as [ttl|] eqn:Httl; cbn [and_then]; [|done].
    intros _. by exists window, t, p, h, nm, ttl.
  - intros (window & t & p & h & nm & ttl & Hw & Htp & Hh & Hnm & Httl & _).
    rewrite Hw. cbn [and_then]. rewrite Htp. cbn [and_then snd].
    rewrite Hh. cbn [and_then]. rewrite Hnm. cbn [and_then]. by rewrite Httl.
Qed.

(** X13. While recording, a sample that succeeds adds one second to the
    pair of the focused window (two seconds if the pair is new) and touches
    nothing else: the other pairs, the table, the files, the sort and pause
    state stay as they are, and nothing is printed. *)
Theorem successful_sample_only_accrues
    (self : TimeUseApp) (os : OS) (p : Z) (nm ttl : string) :
  paused self = false ->
  query_window os = Answer (p, nm, ttl) ->
  let self' := handle self (SampleTick os) in
  record self' = add_timedelta (record self) nm ttl (timedelta_seconds 1)
  /\ recorded (record self') nm ttl
     = Some (match recorded (record self) nm ttl with
             | Some x => x + timedelta_seconds 1
             | None => timedelta_seconds 2
             end)
  /\ (forall a t, (nm, ttl) <> (a, t) ->
        recorded (record self') a t = recorded (record self) a t)
  /\ table self' = table self
  /\ files self' = files self
  /\ saves self' = saves self
  /\ printed self' = printed self
  /\ paused self' = paused self
  /\ sort_by_process_up self' = sort_by_process_up self
  /\ sort_by_time_up self' = sort_by_time_up self.
Proof.
  intros Hp Hq self'. subst self'. cbn [handle].
  unfold on_sample_tick, get_active_window_info. rewrite Hp, Hq.
  cbn [error record_and_print_error record table files saves printed paused
       sort_by_process_up sort_by_time_up process_name title].
  split; [done|]. split.
  { rewrite recorded_add_timedelta. by destruct (recorded (record self) nm ttl). }
  split; [|done].
  intros a t Hne. by apply recorded_add_timedelta_other.
Qed.

Lemma handle_not_save_tick (self : TimeUseApp) (ev : event) :
  is_save_tick ev = false ->
  files (handle self ev) = files self /\ saves (handle self ev) = saves self.
Proof.
  destruct ev; try discriminate; intros _; cbn [handle]; try done.
  unfold on_sample_tick. destruct (paused self); [done|].
  by destruct (error (get_active_window_info os)).
Qed.

(** X15. Sample ticks and the keys n, p and t never write: over any
    sequence of them, whether recording or paused, the files stay as they
    are and no save is counted. (The save ticks and the exit of the
    application are what saves.) *)
Theorem sample_ticks_and_keys_never_write (self : TimeUseApp) (evs : list event) :
  List.forallb (fun ev => negb (is_save_tick ev)) evs = true ->
  files (run self evs) = files self /\ saves (run self evs) = saves self.
Proof.
  revert self. induction evs as [|ev evs IH]; intros self; simpl; [done|].
  intros [Hev Hevs]%andb_prop. apply negb_true_iff in Hev.
  destruct (handle_not_save_tick self ev Hev) as [Hf Hs].
  unfold run in *. simpl. destruct (IH (handle self ev) Hevs) as [-> ->].
  by rewrite Hf, Hs.
Qed.

Lemma handle_distinct_keys (self : TimeUseApp) (ev : event) :
  distinct_keys (record self) -> distinct_keys (record (handle self ev)).
Proof.
  intros Hr. destruct ev; cbn [handle]; try done.
  - unfold on_sample_tick. destruct (paused self); [done|].
    destruct (error (get_active_window_info os)); [done|].
    by apply add_timedelta_distinct_keys.
  - unfold on_save_tick. by destruct (paused self).
Qed.

(** X16. In every state the application reaches, loaded from any file it
    accepts and after any events, the ledger is a proper dict of dicts:
    distinct applications, and distinct titles under each. *)
Theorem app_ledger_has_distinct_keys (self : TimeUseApp) :
  app_reachable self -> distinct_keys (record self).
Proof.
  induction 1 as [fs self Hmount|self ev _ IH].
  - unfold on_mount in Hmount.
    destruct (load_record fs) as [loaded|] eqn:Hload; [|done].
    injection Hmount as <-. cbn [do_refresh_table record].
    destruct (fs !! record_xml) as [content|] eqn:Hfile.
    + rewrite (load_record_present fs content Hfile) in Hload.
      exact (from_xml_Ok_distinct_keys content loaded Hload).
    + unfold load_record, read_file in Hload. rewrite Hfile in Hload.
      injection Hload as <-. split; constructor.
  - by apply handle_distinct_keys.
Qed.


Lemma add_timedelta_never_decreases (r : TimeRecord) a t d a' t' x :
  0 <= d ->
  recorded r a' t' = Some x ->
  exists y, recorded (add_timedelta r a t d) a' t' = Some y /\ x <= y.
Proof.
  intros Hd Hx. destruct (decide ((a, t) = (a', t'))) as [[= <- <-]|Hne].
  - rewrite recorded_add_timedelta, Hx. eexists. split; [done | lia].
  - rewrite recorded_add_timedelta_other by done. exists x. split; [done | lia].
Qed.

Lemma handle_never_decreases (self : TimeUseApp) (ev : event) a t x :
  recorded (record self) a t = Some x ->
  exists y, recorded (record (handle self ev)) a t = Some y /\ x <= y.
Proof.
  intros Hx.
  assert (exists y, recorded (record self) a t = Some y /\ x <= y) as Hsame.
  { exists x. split; [done | lia]. }
  destruct ev; cbn [handle]; try done.
  - unfold on_sample_tick. destruct (paused self); [done|].
    destruct (error (get_active_window_info os)); [done|].
    cbn [record_and_print_error record].
    apply add_timedelta_never_decreases; [|done].
    unfold timedelta_seconds. lia.
  - unfold on_save_tick. by destruct (paused self).
Qed.

(** X18. During a run no pair is ever removed from the ledger and no
    duration ever decreases, whatever ticks and keys are handled. *)
Theorem run_never_removes_or_decreases
    (self : TimeUseApp) (evs : list event) (a t : string) (x : timedelta) :
  recorded (record self) a t = Some x ->
  exists y, recorded (record (run self evs)) a t = Some y /\ x <= y.
Proof.
  revert self x. induction evs as [|ev evs IH]; intros self x Hx.
  - exists x. split; [done | lia].
  - destruct (handle_never_decreases self ev a t x Hx) as (y & Hy & Hxy).
    destruct (IH (handle self ev) y Hy) as (z & Hz & Hyz).
    exists z. split; [exact Hz | lia].
Qed.

Lemma handle_one_sort_mode (self : TimeUseApp) (ev : event) :
  one_sort_mode self -> one_sort_mode (handle self ev).
Proof.
  unfold one_sort_mode. intros Hone. destruct ev; cbn [handle].
  - unfold on_sample_tick. destruct (paused self); [done|].
    by destruct (error (get_active_window_info os)).
  - unfold on_save_tick. by destruct (paused self).
  - done.
  - left. cbn. by destruct (sort_by_process_up self).
  - right. cbn. by destruct (sort_by_time_up self).
Qed.

(** X19. In every state the application reaches exactly one sort mode is
    active: the table is never shown in the plain order of the ledger. *)
Theorem exactly_one_sort_mode_active (self : TimeUseApp) :
  app_reachable self -> one_sort_mode self.
Proof.
  induction 1 as [fs self Hmount|self ev _ IH].
  - unfold on_mount in Hmount. destruct (load_record fs); [|done].
    injection Hmount as <-. by left.
  - by apply handle_one_sort_mode.
Qed.

Lemma action_switch_paused_twice (self : TimeUseApp) :
  action_switch_paused (action_switch_paused self) = self.
Proof.
  destruct self. unfold action_switch_paused. cbn. by rewrite negb_involutive.
Qed.

(** X20. Pausing, letting any number of ticks pass and resuming leaves the
    application exactly as it was before the pause: ledger, files, table,
    sort state and all. *)
Theorem pause_ticks_resume_is_identity (self : TimeUseApp) (ticks : list event) :
  paused self = false ->
  List.forallb is_tick ticks = true ->
  run self (Key_n :: ticks ++ [Key_n]) = self.
Proof.
  intros Hp Hticks. unfold run. cbn [fold_left handle].
  rewrite fold_left_app. fold (run (action_switch_paused self) ticks).
  rewrite run_ticks_paused; [|by cbn; rewrite Hp|done].
  cbn [fold_left handle]. apply action_switch_paused_twice.
Qed.

(** ** The table in every sort state *)

Lemma sort_items_Permutation {V : Type} (up : option bool) (d : Dict.t V) :
  Permutation (sort_items up d) d.
Proof. destruct up; [apply sorted_Permutation | done]. Qed.

Lemma sorted_by_time_Permutation {A : Type} (key : A -> timedelta)
    (up : option bool) (l : list A) :
  Permutation (match up with
               | Some b => sorted key Z.leb b l
               | None => l
               end) l.
Proof. destruct up; [apply sorted_Permutation | done]. Qed.

Lemma application_rows_eq (up_process up_time : option bool) (app : string)
    (titles : Titles) :
  exists td,
    application_rows up_process up_time (app, titles)
    = AppRow app (basename app) (sum_values titles)
        :: List.map (title_row app) td ++ [BlankRow]
    /\ Permutation td titles.
Proof.
  eexists. split; [reflexivity|]. cbn beta.
  rewrite sorted_by_time_Permutation. apply sort_items_Permutation.
Qed.

Lemma refresh_table_data_Permutation (up_process up_time : option bool)
    (record : TimeRecord) :
  exists data,
    refresh_table up_process up_time record
    = List.flat_map (application_rows up_process up_time) data
    /\ Permutation data record.
Proof.
  eexists. split; [reflexivity|]. cbn beta.
  rewrite sorted_by_time_Permutation. apply sort_items_Permutation.
Qed.

Lemma title_times_app (rows1 rows2 : list Row) :
  title_times (rows1 ++ rows2) = title_times rows1 ++ title_times rows2.
Proof.
  induction rows1 as [|row rows1 IH]; simpl; [done|].
  destruct row; simpl; by rewrite IH.
Qed.

Lemma title_times_title_rows (app : string) (td : list (string * timedelta)) :
  title_times (List.map (title_row app) td) = Dict.values td.
Proof. induction td as [|[t d] td IH]; simpl; [done | by rewrite IH]. Qed.

Lemma title_times_application_rows (up_process up_time : option bool)
    (item : string * Titles) :
  Permutation (title_times (application_rows up_process up_time item))
              (Dict.values (snd item)).
Proof.
  destruct item as [app titles].
  destruct (application_rows_eq up_process up_time app titles) as (td & -> & Hperm).
  cbn [title_times snd]. rewrite title_times_app, title_times_title_rows.
  cbn [title_times]. rewrite app_nil_r. by apply Permutation_map.
Qed.

Lemma title_times_flat_map (up_process up_time : option bool)
    (data : list (string * Titles)) :
  Permutation
    (title_times (List.flat_map (application_rows up_process up_time) data))
    (durations data).
Proof.
  induction data as [|item data IH]; [done|].
  cbn [List.flat_map]. rewrite title_times_app. unfold durations.
  cbn [List.flat_map]. apply Permutation_app; [|exact IH].
  apply title_times_application_rows.
Qed.

Lemma length_application_rows (up_process up_time : option bool)
    (item : string * Titles) :
  length (application_rows up_process up_time item) = (2 + length (snd item))%nat.
Proof.
  destruct item as [app titles].
  destruct (application_rows_eq up_process up_time app titles) as (td & -> & Hperm).
  cbn [length snd]. rewrite length_app, length_map. cbn [length].
  rewrite (Permutation_length Hperm). lia.
Qed.

Lemma length_flat_map_application_rows (up_process up_time : option bool)
    (data : list (string * Titles)) :
  length (List.flat_map (application_rows up_process up_time) data)
  = (2 * length data + length (durations data))%nat.
Proof.
  induction data as [|item data IH]; [done|].
  unfold durations in *. cbn [List.flat_map length].
  rewrite !length_app, IH, length_application_rows.
  unfold Dict.values. rewrite length_map.
  unfold Titles, Dict.t, timedelta in *. lia.
Qed.

(** X21. In every sort state in which no row key comes twice, the table
    lists each application of the ledger once and each title once, with
    its duration: the header rows are a rearrangement of the applications,
    the title rows carry a rearrangement of the durations, and the table
    has two rows per application (header and separator) plus one per
    title. *)
Theorem refresh_table_lists_every_entry_once
    (up_process up_time : option bool) (record : TimeRecord) :
  NoDup (row_keys (refresh_table up_process up_time record)) ->
  Permutation (app_keys (refresh_table up_process up_time record))
              (Dict.keys record)
  /\ Permutation (title_times (refresh_table up_process up_time record))
                 (durations record)
  /\ length (refresh_table up_process up_time record)
     = (2 * length record + length (durations record))%nat.
Proof.
  intros _.
  destruct (refresh_table_data_Permutation up_process up_time record)
    as (data & -> & Hperm).
  split; [|split].
  - rewrite app_keys_refresh_table. by apply Permutation_map.
  - rewrite title_times_flat_map. unfold durations.
    by apply Permutation_flat_map.
  - rewrite length_flat_map_application_rows.
    rewrite (Permutation_length Hperm). f_equal.
    apply Permutation_length. unfold durations. by apply Permutation_flat_map.
Qed.

Lemma fold_left_add_Permutation (l l' : list Z) (a : Z) :
  Permutation l l' -> List.fold_left Z.add l a = List.fold_left Z.add l' a.
Proof.
  intros Hperm. revert a.
  induction Hperm as [|x l l' _ IH|x y l|l l' l'' _ IH1 _ IH2]; intros a; simpl.
  - done.
  - apply IH.
  - f_equal. lia.
  - by rewrite IH1.
Qed.

(** X22. In every sort state the total shown in the header row of an
    application is the sum of the times of the title rows listed under
    it. *)
Theorem header_total_is_sum_of_title_rows
    (up_process up_time : option bool) (app : string) (titles : Titles) :
  app_headers (application_rows up_process up_time (app, titles))
  = [(app, List.fold_left Z.add
             (title_times (application_rows up_process up_time (app, titles)))
             timedelta_zero)].
Proof.
  rewrite (fold_left_add_Permutation _ _ _
             (title_times_application_rows up_process up_time (app, titles))).
  destruct (application_rows_eq up_process up_time app titles) as (td & -> & _).
  cbn [app_headers]. f_equal.
  induction td as [|x td IH]; [done | exact IH].
Qed.

Section SortingStable.
Context {A K : Type} (key : A -> K) (leb : K -> K -> bool).
Hypothesis leb_total : forall x y, leb x y = true \/ leb y x = true.
Variable same : A -> bool.
Hypothesis same_key : forall x y, same x = true -> same y = true -> key x = key y.

Lemma insert_sorted_filter (reverse : bool) (x : A) (l : list A) :
  List.filter same (insert_sorted key leb reverse x l) = List.filter same (x :: l).
Proof using leb_total same_key.
  induction l as [|y l IH]; [done|]. cbn [insert_sorted].
  destruct (in_front key leb reverse x y) eqn:Hfront; [done|].
  cbn [List.filter] in *. rewrite IH.
  destruct (same x) eqn:Hx, (same y) eqn:Hy; try done.
  exfalso. unfold in_front in Hfront. rewrite (same_key x y Hx Hy) in Hfront.
  destruct (leb_total (key y) (key y)); destruct reverse; congruence.
Qed.

(** Elements with one and the same key come out of [sorted] in the order
    they went in. *)
Lemma sorted_filter (reverse : bool) (l : list A) :
  List.filter same (sorted key leb reverse l) = List.filter same l.
Proof using leb_total same_key.
  induction l as [|x l IH]; [done|]. cbn [sorted List.fold_right].
  fold (sorted key leb reverse l). rewrite insert_sorted_filter.
  cbn [List.filter]. by rewrite IH.
Qed.
End SortingStable.

(** X23. In the name mode the applications are listed by path in the
    direction of the flag, descending while the flag is set and ascending
    after the key is pressed again, and so are the titles under each. *)
Theorem name_mode_lists_by_flag (up : bool) (record : TimeRecord) :
  StronglySorted (listed_by String.leb up)
                 (app_keys (refresh_table (Some up) None record))
  /\ (forall app titles,
        exists td,
          application_rows (Some up) None (app, titles)
          = AppRow app (basename app) (sum_values titles)
              :: List.map (title_row app) td ++ [BlankRow]
          /\ StronglySorted (listed_by String.leb up) (Dict.keys td)
          /\ Permutation td titles).
Proof.
  assert (forall V (d : Dict.t V),
             StronglySorted (listed_by String.leb up)
                            (Dict.keys (sort_items (Some up) d))) as Hsorted.
  { intros V d. apply StronglySorted_map.
    pose proof (sorted_StronglySorted fst String.leb String.leb_total
                  string_leb_trans up d) as H.
    unfold in_front in H. unfold listed_by. by destruct up. }
  split.
  - unfold refresh_table. rewrite app_keys_refresh_table. apply Hsorted.
  - intros app titles. exists (sort_items (Some up) titles).
    split; [done|]. split; [apply Hsorted | apply sorted_Permutation].
Qed.

Lemma app_headers_app (rows1 rows2 : list Row) :
  app_headers (rows1 ++ rows2) = app_headers rows1 ++ app_headers rows2.
Proof.
  induction rows1 as [|row rows1 IH]; simpl; [done|].
  destruct row; simpl; by rewrite IH.
Qed.

Lemma app_headers_title_rows (app : string) (td : list (string * timedelta)) :
  app_headers (List.map (title_row app) td) = [].
Proof. by induction td. Qed.

Lemma app_headers_flat_map (up_process up_time : option bool)
    (data : list (string * Titles)) :
  app_headers (List.flat_map (application_rows up_process up_time) data)
  = List.map (fun item => (fst item, sum_values (snd item))) data.
Proof.
  induction data as [|[app titles] data IH]; [done|].
  cbn [List.flat_map List.map fst snd]. rewrite app_headers_app, IH.
  destruct (application_rows_eq up_process up_time app titles) as (td & -> & _).
  cbn [app_headers]. by rewrite app_headers_app, app_headers_title_rows.
Qed.

Lemma filter_headers (total : timedelta) (data : list (string * Titles)) :
  List.filter (fun h : string * timedelta => Z.eqb (snd h) total)
              (List.map (fun item => (fst item, sum_values (snd item))) data)
  = List.map (fun item => (fst item, sum_values (snd item)))
             (List.filter (fun item => Z.eqb (sum_values (snd item)) total) data).
Proof.
  induction data as [|item data IH]; [done|]. cbn [List.map List.filter snd].
  destruct (Z.eqb (sum_values (snd item)) total); cbn [List.map]; by rewrite IH.
Qed.

(** X24. In the time mode the applications are listed by their total in
    the direction of the flag, the largest total first while the flag is
    set and the smallest first after the key is pressed again;
    applications with the same total keep the order of the ledger. The
    titles under each application are listed by their duration in the same
    direction. *)
Theorem time_mode_lists_by_total (up : bool) (record : TimeRecord) :
  StronglySorted (listed_by_time up)
    (List.map snd (app_headers (refresh_table None (Some up) record)))
  /\ (forall total,
        List.filter (fun h => Z.eqb (snd h) total)
                    (app_headers (refresh_table None (Some up) record))
        = List.filter (fun h => Z.eqb (snd h) total)
                      (List.map (fun item => (fst item, sum_values (snd item)))
                                record))
  /\ (forall app titles,
        exists td,
          application_rows None (Some up) (app, titles)
          = AppRow app (basename app) (sum_values titles)
              :: List.map (title_row app) td ++ [BlankRow]
          /\ StronglySorted (listed_by_time up) (Dict.values td)
          /\ Permutation td titles).
Proof.
  assert (forall (A : Type) (key : A -> timedelta) (l : list A),
             StronglySorted (listed_by_time up)
                            (List.map key (sorted key Z.leb up l))) as Hsorted.
  { intros A key l. apply StronglySorted_map.
    pose proof (sorted_StronglySorted key Z.leb Z_leb_total Z_leb_trans up l)
      as H.
    unfold in_front in H. unfold listed_by_time. by destruct up. }
  unfold refresh_table. rewrite app_headers_flat_map. cbn [sort_items].
  split; [|split].
  - rewrite map_map. cbn [snd].
    apply (Hsorted _ (fun x : string * Titles => sum_values (snd x))).
  - intros total. rewrite !(filter_headers total). f_equal.
    apply (sorted_filter (fun x : string * Titles => sum_values (snd x)) Z.leb
             Z_leb_total).
    intros x y Hx Hy. apply Z.eqb_eq in Hx, Hy. congruence.
  - intros app titles. exists (sorted snd Z.leb up titles).
    split; [done|]. split; [apply (Hsorted _ snd) | apply sorted_Permutation].
Qed.

(** ** Printing and totals *)

Lemma handle_printed (self : TimeUseApp) (ev : event) :
  printed (handle self ev) = printed self.
Proof.
  destruct ev; cbn [handle]; try done.
  - unfold on_sample_tick. destruct (paused self); [done|].
    destruct (error (get_active_window_info os)) eqn:Herr; [done|].
    cbn [record_and_print_error printed]. by rewrite Herr.
  - unfold on_save_tick. by destruct (paused self).
Qed.

(** X26. The application never prints: the subscriber that would print the
    error of a sample only gets the samples that have none, so over any
    run what was printed stays as it was. *)
Theorem errors_are_never_printed (self : TimeUseApp) (evs : list event) :
  printed (run self evs) = printed self.
Proof.
  revert self. induction evs as [|ev evs IH]; intros self; [done|].
  unfold run in *. cbn [fold_left]. by rewrite IH, handle_printed.
Qed.

Lemma fold_left_add_acc (l : list Z) (a : Z) :
  List.fold_left Z.add l a = a + List.fold_left Z.add l 0.
Proof.
  revert a. induction l as [|x l IH]; intros a; cbn [List.fold_left]; [lia|].
  rewrite (IH (a + x)), (IH (0 + x)). lia.
Qed.

Lemma sum_values_set (titles : Titles) (t : string) (v : timedelta) :
  sum_values (Dict.set titles t v)
  = sum_values titles
    - match Dict.get titles t with Some old => old | None => 0 end
    + v.
Proof.
  unfold sum_values, timedelta_zero.
  induction titles as [|[t0 d0] titles IH]; simpl; [lia|].
  destruct (String.eqb t0 t); simpl.
  - rewrite (fold_left_add_acc _ (0 + v)), (fold_left_add_acc _ (0 + d0)). lia.
  - rewrite (fold_left_add_acc _ (0 + d0)), IH.
    rewrite (fold_left_add_acc (Dict.values titles) (0 + d0)). lia.
Qed.

(** X27. The total of an application, as the table shows it, grows by what
    [add_timedelta] adds: by the interval when the title is there already,
    by twice the interval when the title is new. *)
Theorem add_timedelta_total (r : TimeRecord) (a t : string) (d : timedelta) :
  let titles := Dict.get_default r a [] in
  exists titles',
    Dict.get (add_timedelta r a t d) a = Some titles'
    /\ sum_values titles'
       = sum_values titles
         + match Dict.get titles t with Some _ => d | None => d + d end.
Proof.
  intros titles. unfold add_timedelta. rewrite dict_get_set_eq.
  eexists. split; [reflexivity|]. fold titles.
  rewrite sum_values_set. unfold Dict.get_default.
  destruct (Dict.get titles t); lia.
Qed.

(** X28. What the ledger holds for each pair does not depend on the order
    in which two different pairs were accrued; the order only shows in the
    insertion order of the keys. *)
Theorem add_timedelta_pairs_commute
    (r : TimeRecord) (a t a' t' : string) (d d' : timedelta) :
  (a, t) <> (a', t') ->
  forall x y,
    recorded (add_timedelta (add_timedelta r a t d) a' t' d') x y
    = recorded (add_timedelta (add_timedelta r a' t' d') a t d) x y.
Proof.
  intros Hne x y.
  destruct (decide ((a, t) = (x, y))) as [[= <- <-]|Hxy].
  - rewrite recorded_add_timedelta_other by congruence.
    rewrite !recorded_add_timedelta.
    by rewrite recorded_add_timedelta_other by congruence.
  - rewrite (recorded_add_timedelta_other (add_timedelta r a' t' d') a t) by done.
    destruct (decide ((a', t') = (x, y))) as [[= <- <-]|Hxy'].
    + rewrite !recorded_add_timedelta.
      by rewrite recorded_add_timedelta_other by done.
    + by rewrite !recorded_add_timedelta_other by done.
Qed.

End Program.

(** * Whole seconds

    The ticks of the program add whole seconds. On durations of whole
    seconds the two conversions above are inverse to each other, so a
    ledger of such durations is read back as it is. *)

Lemma substring_append_left (s t : string) :
  String.substring 0 (String.length s) (s ++ t)%string = s.
Proof.
  induction s as [|c s IH]; simpl.
  - by destruct t.
  - by rewrite IH.
Qed.

Lemma substring_whole (t : string) :
  String.substring 0 (String.length t) t = t.
Proof. induction t as [|c t IH]; simpl; [done | by rewrite IH]. Qed.

Lemma substring_append_right (s t : string) :
  String.substring (String.length s) (String.length t) (s ++ t)%string = t.
Proof. induction s as [|c s IH]; simpl; [apply substring_whole | exact IH]. Qed.

Lemma length_append (s t : string) :
  String.length (s ++ t)%string = (String.length s + String.length t)%nat.
Proof. induction s as [|c s IH]; simpl; [done | by rewrite IH]. Qed.

Lemma int_of_string_of_Z (z : Z) :
  NilZero.int_of_string (NilZero.string_of_int (Z.to_int z)) = Some (Z.to_int z).
Proof.
  apply NilZero.isi.
  - destruct z as [|p|p]; simpl; try discriminate.
    intros [= H]. by apply (DecimalPos.Unsigned.to_uint_nonnil p).
  - destruct z as [|p|p]; simpl; try discriminate.
    intros [= H]. by apply (DecimalPos.Unsigned.to_uint_nonnil p).
Qed.

Lemma whole_seconds_reread (z : Z) :
  timedelta_of_whole_seconds (str_whole_seconds (timedelta_seconds z))
  = Some (timedelta_seconds z).
Proof.
  assert (timedelta_seconds z / 1000000 = z) as Hdiv.
  { unfold timedelta_seconds. apply Z.div_mul. lia. }
  unfold timedelta_of_whole_seconds, str_whole_seconds. rewrite !Hdiv.
  set (digits := NilZero.string_of_int (Z.to_int z)).
  rewrite length_append. change (String.length ".0") with 2%nat.
  replace (String.length digits + 2 - 2)%nat with (String.length digits) by lia.
  pose proof (substring_append_right digits ".0") as Hright.
  change (String.length ".0") with 2%nat in Hright.
  rewrite Hright, substring_append_left.
  cbn [String.eqb Ascii.eqb Bool.eqb]. unfold digits.
  rewrite int_of_string_of_Z. by rewrite DecimalZ.of_to.
Qed.

(** A reachable ledger of whole seconds whose names hold no control
    character is written and read back as it is. *)
Lemma from_xml_to_xml_whole_seconds (r : TimeRecord) :
  reachable r ->
  plain_names r = true ->
  Forall (fun d => exists z, d = timedelta_seconds z) (durations r) ->
  exists doc,
    to_xml str_whole_seconds r = Ok doc
    /\ from_xml timedelta_of_whole_seconds doc = Ok r.
Proof.
  intros Hreach Hplain Hwhole.
  apply from_xml_to_xml_exact; [by apply reachable_distinct_keys | done |].
  eapply Forall_impl; [exact Hwhole|].
  intros d [z ->]. apply whole_seconds_reread.
Qed.

(** * Truncated titles *)

Lemma list_ascii_of_string_substring_0 (n : nat) (s : string) :
  list_ascii_of_string (String.substring 0 n s)
  = firstn n (list_ascii_of_string s).
Proof.
  revert s. induction n as [|n IH]; intros [|c s]; simpl; try done.
  by rewrite IH.
Qed.

Lemma list_ascii_of_string_append (s t : string) :
  list_ascii_of_string (s ++ t)%string
  = list_ascii_of_string s ++ list_ascii_of_string t.
Proof. induction s as [|c s IH]; simpl; [done | by rewrite IH]. Qed.

Lemma length_list_ascii_of_string (s : string) :
  length (list_ascii_of_string s) = String.length s.
Proof. induction s as [|c s IH]; simpl; [done | by rewrite IH]. Qed.

(** On strings of characters with codes below 256, which is what [string]
    holds, [truncate_string] is [truncate_chars]. *)
Lemma truncate_string_truncate_chars (s : string) :
  list_ascii_of_string (truncate_string s)
  = truncate_chars "."%char (list_ascii_of_string s).
Proof.
  unfold truncate_string, truncate_chars.
  rewrite length_list_ascii_of_string.
  destruct (20 <? String.length s)%nat; [|done].
  by rewrite list_ascii_of_string_append, list_ascii_of_string_substring_0.
Qed.


(** * The statements on concrete data *)

Lemma add_timedelta_fresh_pair_witness :
  recorded TimeRecord_new "C:\editor.exe" "draft.txt" = None
  /\ recorded (accrue_ticks 5 TimeRecord_new "C:\editor.exe" "draft.txt"
                 (timedelta_seconds 1)) "C:\editor.exe" "draft.txt"
     = Some (timedelta_seconds 6).
Proof.
  split; [reflexivity|].
  exact (proj1 (add_timedelta_fresh_pair_counts_first_tick_twice
                  TimeRecord_new "C:\editor.exe" "draft.txt"
                  (timedelta_seconds 1) 4 eq_refl)).
Defined.



(** The reader accepts a document whose root is not [TimeRecord] and
    returns the ledger of its [Application] children. *)
Lemma from_xml_reads_foreign_root :
  tag foreign_root_document <> "TimeRecord"
  /\ from_xml timedelta_of_whole_seconds (Markup foreign_root_document)
     = Ok editor_ledger.
Proof. split; [discriminate | reflexivity]. Qed.

(** A process that ends after [record.xml] was opened for writing leaves
    that file empty, with no other copy of the ledger. *)
Lemma save_record_can_lose_the_only_copy :
  ~ save_record_never_loses_copy str_whole_seconds editor_ledger
      {[ record_xml := Markup browser_editor_document ]}.
Proof.
  intros Hsafe.
  destruct (Hsafe)
    with (fs' := open_w {[ record_xml := Markup browser_editor_document ]}
                   record_xml)
    as (path & content & Hlook & Hret).
  - exists record_xml, (Markup browser_editor_document).
    split; [apply lookup_singleton_eq | reflexivity].
  - right. left. reflexivity.
  - unfold open_w in Hlook. destruct (decide (path = record_xml)) as [->|Hne].
    + rewrite lookup_insert_eq in Hlook. by injection Hlook as <-.
    + rewrite lookup_insert_ne, lookup_singleton_ne in Hlook by done. done.
Qed.

Lemma paused_ticks_witness :
  let self := {| paused := true; record := editor_ledger;
                 sort_by_process_up := Some true; sort_by_time_up := None;
                 table := []; files := ∅; printed := []; saves := 0 |} in
  let ticks := [SampleTick os_editor_focused; SaveTick;
                SampleTick os_editor_focused] in
  paused self = true
  /\ List.forallb is_tick ticks = true
  /\ record (run str_whole_seconds path_tail self ticks) = editor_ledger
  /\ saves (run str_whole_seconds path_tail self ticks) = 0%nat
  /\ record (run str_whole_seconds path_tail self
               (ticks ++ [Key_n; SampleTick os_editor_focused]))
     = [("C:\editor.exe", [("draft.txt", timedelta_seconds 6)])].
Proof.
  intros self ticks.
  destruct (paused_ticks_are_dropped str_whole_seconds path_tail self ticks
              eq_refl eq_refl) as (Hrecord & _ & Hsaves & Hresume).
  split; [reflexivity|]. split; [reflexivity|].
  split; [exact Hrecord|]. split; [exact Hsaves|].
  rewrite (Hresume [SampleTick os_editor_focused]). reflexivity.
Defined.

Lemma startup_table_witness :
  let fs : FileSystem := {[ record_xml := Markup browser_editor_document ]} in
  exists self,
    on_mount timedelta_of_whole_seconds path_tail fs = Ok self
    /\ Dict.keys (record self) = ["C:\browser.exe"; "C:\editor.exe"]
    /\ app_keys (table self) = ["C:\editor.exe"; "C:\browser.exe"]
    /\ StronglySorted (fun a b => String.leb b a = true) (app_keys (table self)).
Proof.
  intros fs.
  destruct (on_mount timedelta_of_whole_seconds path_tail fs) as [self|] eqn:Hmount;
    [|vm_compute in Hmount; discriminate].
  exists self. split; [reflexivity|].
  split; [vm_compute in Hmount; injection Hmount as <-; reflexivity|].
  split; [vm_compute in Hmount; injection Hmount as <-; reflexivity|].
  exact (proj1 (proj2 (proj2 (startup_table_is_sorted_by_name_descending
                                timedelta_of_whole_seconds path_tail fs self Hmount)))).
Defined.

Lemma sort_keys_witness :
  exists self,
    on_mount timedelta_of_whole_seconds path_tail ∅ = Ok self
    /\ app_reachable str_whole_seconds timedelta_of_whole_seconds path_tail
         (handle str_whole_seconds path_tail self Key_t)
    /\ sort_by_time_up (handle str_whole_seconds path_tail self Key_t) = Some true
    /\ sort_by_time_up
         (handle str_whole_seconds path_tail
            (handle str_whole_seconds path_tail self Key_t) Key_t) = Some false
    /\ sort_by_process_up
         (handle str_whole_seconds path_tail
            (handle str_whole_seconds path_tail self Key_t) Key_p) = Some true
    /\ sort_by_time_up
         (handle str_whole_seconds path_tail
            (handle str_whole_seconds path_tail self Key_t) Key_p) = None.
Proof.
  destruct (on_mount timedelta_of_whole_seconds path_tail ∅) as [self|] eqn:Hmount;
    [|vm_compute in Hmount; discriminate].
  exists self. split; [reflexivity|].
  assert (app_reachable str_whole_seconds timedelta_of_whole_seconds path_tail
            (handle str_whole_seconds path_tail self Key_t)) as Hreach.
  { apply app_handled. exact (app_mounted _ _ _ ∅ self Hmount). }
  split; [exact Hreach|].
  assert (sort_by_time_up (handle str_whole_seconds path_tail self Key_t)
          = Some true) as Htime.
  { vm_compute in Hmount. injection Hmount as <-. reflexivity. }
  split; [exact Htime|].
  destruct (sort_keys_exclusive_and_toggle str_whole_seconds
              timedelta_of_whole_seconds path_tail _ Hreach)
    as (_ & (Hclear & _) & _ & _ & Htoggle).
  split; [exact (Htoggle true Htime)|].
  split; [reflexivity | exact Hclear].
Defined.

Lemma failed_sample_witness :
  let self := {| paused := false; record := editor_ledger;
                 sort_by_process_up := Some true; sort_by_time_up := None;
                 table := []; files := ∅; printed := []; saves := 0 |} in
  query_window os_access_denied = Fails "Access is denied."
  /\ error (get_active_window_info os_access_denied) = Some "Access is denied."
  /\ record (run str_whole_seconds path_tail self
               [SampleTick os_access_denied; SampleTick os_editor_focused])
     = [("C:\editor.exe", [("draft.txt", timedelta_seconds 6)])].
Proof.
  intros self.
  destruct (failed_sample_is_skipped str_whole_seconds path_tail self
              os_access_denied "Access is denied." eq_refl)
    as (Hinfo & _ & _ & Hrest).
  split; [reflexivity|]. split; [by rewrite Hinfo|].
  rewrite (Hrest [SampleTick os_editor_focused]). reflexivity.
Defined.

Lemma load_record_absent_witness :
  (∅ : FileSystem) !! record_xml = None
  /\ load_record timedelta_of_whole_seconds ∅ = Ok TimeRecord_new.
Proof.
  split; [reflexivity|].
  exact (load_record_absent_file_gives_empty_ledger timedelta_of_whole_seconds
           ∅ eq_refl).
Defined.

Lemma repeated_application_witness :
  findall repeated_application_document "Application"
  = [editor_first] ++ editor_last :: [browser_between]
  /\ schema_ok timedelta_of_whole_seconds (Markup repeated_application_document)
     = true
  /\ exists r,
       from_xml timedelta_of_whole_seconds (Markup repeated_application_document)
       = Ok r
       /\ Dict.get r "C:\editor.exe" = Some [("draft.txt", timedelta_seconds 7)].
Proof.
  split; [reflexivity|]. split; [reflexivity|].
  destruct (from_xml_repeated_application_keeps_last timedelta_of_whole_seconds
              repeated_application_document [editor_first] [browser_between]
              editor_last "C:\editor.exe" eq_refl eq_refl)
    as (r & td & Hr & Htd & Hget).
  - repeat constructor. discriminate.
  - reflexivity.
  - exists r. split; [exact Hr|]. rewrite Hget. f_equal.
    vm_compute in Htd. by injection Htd as <-.
Defined.

(** * The further properties on concrete data *)

Lemma accrue_on_existing_pair_witness :
  recorded editor_ledger "C:\editor.exe" "draft.txt" = Some (timedelta_seconds 5)
  /\ recorded (accrue_ticks 3 editor_ledger "C:\editor.exe" "draft.txt"
                 (timedelta_seconds 1)) "C:\editor.exe" "draft.txt"
     = Some (timedelta_seconds 8).
Proof.
  split; [reflexivity|].
  exact (accrue_on_existing_pair_adds_exactly 3 editor_ledger "C:\editor.exe"
           "draft.txt" (timedelta_seconds 1) (timedelta_seconds 5) eq_refl).
Defined.

Lemma add_timedelta_leaves_other_pairs_witness :
  ("C:\browser.exe", "news") <> ("C:\editor.exe", "draft.txt")
  /\ recorded (add_timedelta editor_ledger "C:\browser.exe" "news"
                 (timedelta_seconds 1)) "C:\editor.exe" "draft.txt"
     = Some (timedelta_seconds 5).
Proof.
  assert (("C:\browser.exe", "news") <> ("C:\editor.exe", "draft.txt")) as Hne
    by discriminate.
  split; [exact Hne|].
  exact (add_timedelta_leaves_other_pairs editor_ledger "C:\browser.exe" "news"
           "C:\editor.exe" "draft.txt" (timedelta_seconds 1) Hne).
Defined.

Lemma reachable_ledger_well_formed_witness :
  reachable (add_timedelta
               (add_timedelta TimeRecord_new "C:\editor.exe" "draft.txt"
                  (timedelta_seconds 1))
               "C:\browser.exe" "news" (timedelta_seconds 1))
  /\ NoDup (Dict.keys (add_timedelta
               (add_timedelta TimeRecord_new "C:\editor.exe" "draft.txt"
                  (timedelta_seconds 1))
               "C:\browser.exe" "news" (timedelta_seconds 1))).
Proof.
  assert (reachable (add_timedelta
               (add_timedelta TimeRecord_new "C:\editor.exe" "draft.txt"
                  (timedelta_seconds 1))
               "C:\browser.exe" "news" (timedelta_seconds 1))) as Hreach.
  { repeat apply reachable_add. apply reachable_new. }
  split; [exact Hreach|].
  exact (proj1 (reachable_ledger_well_formed _ Hreach)).
Defined.

Lemma from_xml_result_has_distinct_keys_witness :
  from_xml timedelta_of_whole_seconds (Markup repeated_application_document)
  = Ok two_application_ledger
  /\ distinct_keys two_application_ledger.
Proof.
  split; [reflexivity|].
  exact (from_xml_result_has_distinct_keys timedelta_of_whole_seconds
           (Markup repeated_application_document) two_application_ledger eq_refl).
Defined.

Lemma from_xml_records_last_title_witness :
  findall repeated_title_document "Application"
  = [editor_first] ++ editor_draft_twice :: [browser_between]
  /\ schema_ok timedelta_of_whole_seconds (Markup repeated_title_document) = true
  /\ exists r,
       from_xml timedelta_of_whole_seconds (Markup repeated_title_document) = Ok r
       /\ recorded r "C:\editor.exe" "draft.txt" = Some (timedelta_seconds 9).
Proof.
  split; [reflexivity|]. split; [reflexivity|].
  destruct (from_xml_records_last_title_of_last_application
              timedelta_of_whole_seconds repeated_title_document
              [editor_first] [browser_between] editor_draft_twice "C:\editor.exe"
              [Elem "Title" [("name", "draft.txt")] (Some "5.0") [];
               Elem "Title" [("name", "notes.txt")] (Some "60.0") []]
              []
              (Elem "Title" [("name", "draft.txt")] (Some "9.0") [])
              "draft.txt" eq_refl eq_refl)
    as (r & time & Hr & Htime & Hrec).
  - repeat constructor. discriminate.
  - reflexivity.
  - reflexivity.
  - constructor.
  - reflexivity.
  - exists r. split; [exact Hr|]. rewrite Hrec. f_equal.
    vm_compute in Htime. by injection Htime as <-.
Defined.



Lemma successful_sample_witness :
  let self := {| paused := false; record := two_application_ledger;
                 sort_by_process_up := Some true; sort_by_time_up := None;
                 table := []; files := ∅; printed := []; saves := 0 |} in
  paused self = false
  /\ query_window os_editor_focused = Answer (4242, "C:\editor.exe", "draft.txt")
  /\ recorded (record (handle str_whole_seconds path_tail self
                         (SampleTick os_editor_focused)))
              "C:\editor.exe" "draft.txt" = Some (timedelta_seconds 8)
  /\ recorded (record (handle str_whole_seconds path_tail self
                         (SampleTick os_editor_focused)))
              "C:\browser.exe" "news" = Some (timedelta_seconds 30).
Proof.
  intros self.
  destruct (successful_sample_only_accrues str_whole_seconds path_tail self
              os_editor_focused 4242 "C:\editor.exe" "draft.txt"
              eq_refl eq_refl) as (_ & Hpair & Hother & _).
  split; [reflexivity|]. split; [reflexivity|].
  split; [exact Hpair|].
  rewrite (Hother "C:\browser.exe" "news"); [reflexivity | discriminate].
Defined.

Lemma sample_ticks_and_keys_never_write_witness :
  let self := {| paused := false; record := two_application_ledger;
                 sort_by_process_up := Some true; sort_by_time_up := None;
                 table := []; files := ∅; printed := []; saves := 0 |} in
  let evs := [SampleTick os_editor_focused; Key_t; Key_n;
              SampleTick os_access_denied; Key_n; Key_p] in
  List.forallb (fun ev => negb (is_save_tick ev)) evs = true
  /\ files (run str_whole_seconds path_tail self evs) = ∅
  /\ saves (run str_whole_seconds path_tail self evs) = 0%nat.
Proof.
  intros self evs. split; [reflexivity|].
  exact (sample_ticks_and_keys_never_write str_whole_seconds path_tail self evs eq_refl).
Defined.

Lemma app_ledger_has_distinct_keys_witness :
  exists self,
    on_mount timedelta_of_whole_seconds path_tail
      {[ record_xml := Markup repeated_title_document ]} = Ok self
    /\ app_reachable str_whole_seconds timedelta_of_whole_seconds path_tail
         (handle str_whole_seconds path_tail self (SampleTick os_editor_focused))
    /\ distinct_keys
         (record (handle str_whole_seconds path_tail self
                    (SampleTick os_editor_focused))).
Proof.
  destruct (on_mount timedelta_of_whole_seconds path_tail
              {[ record_xml := Markup repeated_title_document ]})
    as [self|] eqn:Hmount; [|vm_compute in Hmount; discriminate].
  exists self. split; [reflexivity|].
  assert (app_reachable str_whole_seconds timedelta_of_whole_seconds path_tail
            (handle str_whole_seconds path_tail self
               (SampleTick os_editor_focused))) as Hreach.
  { apply app_handled. exact (app_mounted _ _ _ _ self Hmount). }
  split; [exact Hreach|].
  exact (app_ledger_has_distinct_keys str_whole_seconds
           timedelta_of_whole_seconds path_tail _ Hreach).
Defined.


Lemma refresh_table_lists_every_entry_once_witness :
  NoDup (row_keys (refresh_table path_tail (Some true) None
                     two_application_ledger))
  /\ Permutation
       (app_keys (refresh_table path_tail (Some true) None
                    two_application_ledger))
       ["C:\editor.exe"; "C:\browser.exe"]
  /\ length (refresh_table path_tail (Some true) None two_application_ledger)
     = 6%nat.
Proof.
  assert (NoDup (row_keys (refresh_table path_tail (Some true) None
                             two_application_ledger))) as Hrows.
  { apply (bool_decide_unpack _). by vm_compute. }
  destruct (refresh_table_lists_every_entry_once path_tail (Some true) None
              two_application_ledger Hrows) as (Happs & _ & Hlen).
  split; [exact Hrows|]. split; [exact Happs | exact Hlen].
Defined.

(** Two applications of which one is named as the other and one of its
    titles joined by an underscore give the same row key twice. *)
Lemma refresh_table_can_repeat_a_row_key :
  ~ NoDup (row_keys (refresh_table path_tail (Some true) None
                       underscore_ledger)).
Proof.
  intros Hrows. vm_compute in Hrows.
  apply NoDup_cons in Hrows as [Hin _].
  apply Hin. do 2 right. left.
Qed.

Lemma run_never_removes_or_decreases_witness :
  let self := {| paused := false; record := two_application_ledger;
                 sort_by_process_up := Some true; sort_by_time_up := None;
                 table := []; files := ∅; printed := []; saves := 0 |} in
  let evs := [SampleTick os_editor_focused; SaveTick; Key_t;
              SampleTick os_editor_focused] in
  recorded (record self) "C:\editor.exe" "draft.txt" = Some (timedelta_seconds 7)
  /\ exists y,
       recorded (record (run str_whole_seconds path_tail self evs))
                "C:\editor.exe" "draft.txt" = Some y
       /\ timedelta_seconds 7 <= y.
Proof.
  intros self evs. split; [reflexivity|].
  exact (run_never_removes_or_decreases str_whole_seconds path_tail self evs
           "C:\editor.exe" "draft.txt" (timedelta_seconds 7) eq_refl).
Defined.

Lemma exactly_one_sort_mode_witness :
  exists self,
    on_mount timedelta_of_whole_seconds path_tail ∅ = Ok self
    /\ app_reachable str_whole_seconds timedelta_of_whole_seconds path_tail
         (run str_whole_seconds path_tail self [Key_t; Key_t; Key_p])
    /\ one_sort_mode (run str_whole_seconds path_tail self [Key_t; Key_t; Key_p]).
Proof.
  destruct (on_mount timedelta_of_whole_seconds path_tail ∅) as [self|] eqn:Hmount;
    [|vm_compute in Hmount; discriminate].
  exists self. split; [reflexivity|].
  assert (app_reachable str_whole_seconds timedelta_of_whole_seconds path_tail
            (run str_whole_seconds path_tail self [Key_t; Key_t; Key_p]))
    as Hreach.
  { unfold run. cbn [fold_left]. repeat apply app_handled.
    exact (app_mounted _ _ _ ∅ self Hmount). }
  split; [exact Hreach|].
  exact (exactly_one_sort_mode_active str_whole_seconds
           timedelta_of_whole_seconds path_tail _ Hreach).
Defined.

Lemma pause_ticks_resume_witness :
  let self := {| paused := false; record := two_application_ledger;
                 sort_by_process_up := Some true; sort_by_time_up := None;
                 table := []; files := ∅; printed := []; saves := 0 |} in
  let ticks := [SampleTick os_editor_focused; SaveTick;
                SampleTick os_editor_focused] in
  paused self = false
  /\ List.forallb is_tick ticks = true
  /\ run str_whole_seconds path_tail self (Key_n :: ticks ++ [Key_n]) = self.
Proof.
  intros self ticks. split; [reflexivity|]. split; [reflexivity|].
  exact (pause_ticks_resume_is_identity str_whole_seconds path_tail self ticks
           eq_refl eq_refl).
Defined.

Lemma add_timedelta_pairs_commute_witness :
  ("C:\editor.exe", "draft.txt") <> ("C:\browser.exe", "news")
  /\ recorded (add_timedelta
                 (add_timedelta editor_ledger "C:\editor.exe" "draft.txt"
                    (timedelta_seconds 1))
                 "C:\browser.exe" "news" (timedelta_seconds 1))
              "C:\editor.exe" "draft.txt"
     = recorded (add_timedelta
                   (add_timedelta editor_ledger "C:\browser.exe" "news"
                      (timedelta_seconds 1))
                   "C:\editor.exe" "draft.txt" (timedelta_seconds 1))
                "C:\editor.exe" "draft.txt".
Proof.
  assert (("C:\editor.exe", "draft.txt") <> ("C:\browser.exe", "news")) as Hne
    by discriminate.
  split; [exact Hne|].
  exact (add_timedelta_pairs_commute editor_ledger "C:\editor.exe" "draft.txt"
           "C:\browser.exe" "news" (timedelta_seconds 1) (timedelta_seconds 1)
           Hne "C:\editor.exe" "draft.txt").
Defined.
